(** * Model registry and model selection manager

    A shallow embedding of [packages/core/src/models]: the type declarations
    of [types.ts], the catalog of [modelRegistry.ts] and the selection state
    machine of [modelSelectionManager.ts], followed by the properties the
    specification states about them.

    Conventions of the embedding.
    - A TypeScript optional property [f?: T] is an [option T]; [None] is
      [undefined].  The operator [a || b] on such a value is [or_else].
    - A JavaScript [Map] keeps its keys in insertion order; it is an
      association list ([OMap]) wherever that order is observed, and a [gmap]
      where the code only gets and sets (the reverse index).
    - A [throw] is the [Throw] outcome of the [result] monad; the exception
      carries its message.
    - [Date.now()] and [process.env] are inputs of the operations that read
      them.
    - An [AuthType] is the string the enum member stands for at run time: the
      registry casts the keys of the providers configuration to [AuthType]
      without checking them. *)

From Stdlib Require Import QArith ZArith.
From stdpp Require Import gmap strings list fin_maps.

Local Open Scope string_scope.
Local Open Scope list_scope.

(** ** Exceptions *)

(** [new Error(message)]. *)
Record JsError := Error { message : string }.

Inductive result (A : Type) : Type :=
| Ok (a : A)
| Throw (e : JsError).
Arguments Ok {A} a.
Arguments Throw {A} e.

Definition bind {A B : Type} (r : result A) (k : A → result B) : result B :=
  match r with
  | Ok a => k a
  | Throw e => Throw e
  end.

Notation "'try!' x ':=' e 'in' k" := (bind e (fun x => k))
  (at level 10, x pattern, e at level 100, k at level 200).

(** ** JavaScript values and operators *)

(** A number.  The code at hand copies numbers and never computes with
    them; a literal stands for its decimal value. *)
Definition number := Q.

(** [s || d] for [s : string | undefined]: the empty string and [undefined]
    are the two falsy values of that type. *)
Definition or_else (s : option string) (d : string) : string :=
  match s with
  | Some x => if decide (x = "") then d else x
  | None => d
  end.

(** [!s] for [s : string | undefined]. *)
Definition falsy (s : option string) : bool :=
  match s with
  | Some x => bool_decide (x = "")
  | None => true
  end.

(** A property value of a generation configuration. *)
Inductive JsValue :=
| VNumber (n : number)
| VBoolean (b : bool)
| VUndefined.

(** The names of the members every object inherits from
    [Object.prototype], as the language and the engine define them (no
    other code is taken to have added to the prototype): reading one of
    them from an object literal that does not define it yields that member,
    a function ([__proto__]: the prototype object), not [undefined]. *)
Definition Object_prototype_members : list string :=
  [ "constructor"; "__defineGetter__"; "__defineSetter__"; "hasOwnProperty";
    "__lookupGetter__"; "__lookupSetter__"; "isPrototypeOf";
    "propertyIsEnumerable"; "toString"; "valueOf"; "__proto__";
    "toLocaleString" ].

(** What the property [baseUrl] of a resolved definition can hold: a
    string, or the inherited member the table of default base-URLs yields
    when it is indexed with the name of such a member.  Both kinds of
    inherited member are truthy. *)
Inductive BaseUrl :=
| Url (url : string)
| InheritedMember (name : string).
Coercion Url : string >-> BaseUrl.

(** ** Insertion-ordered maps (the ECMAScript [Map]) *)

Module OMap.
Section Defs.
Context {V : Type}.

Definition t := list (string * V).

Definition empty : t := [].

Fixpoint get (k : string) (m : t) : option V :=
  match m with
  | [] => None
  | (k', v) :: m' => if decide (k = k') then Some v else get k m'
  end.

(** [m.set(k, v)]: an existing key keeps its position, a new key goes
    last. *)
Fixpoint set (k : string) (v : V) (m : t) : t :=
  match m with
  | [] => [(k, v)]
  | (k', v') :: m' =>
      if decide (k = k') then (k, v) :: m' else (k', v') :: set k v m'
  end.

Definition has (k : string) (m : t) : bool :=
  match get k m with Some _ => true | None => false end.

Definition keys (m : t) : list string := m.*1.
Definition values (m : t) : list V := m.*2.
Definition size (m : t) : nat := length m.
End Defs.
Arguments t : clear implicits.
End OMap.

(** ** [types.ts] *)

Abbreviation AuthType := string.

(** Modelled from the spec: the enum [AuthType] is declared in
    [core/contentGenerator.ts], which is not part of the sources at hand.
    [QWEN_OAUTH] is the reserved built-in provider-type; its value is the
    key the registry's tests use for it and a key of [DEFAULT_BASE_URLS]. *)
Definition QWEN_OAUTH : AuthType := "qwen-oauth".

(** Modelled from the spec: the member of the same enum for the one legacy
    provider-type the environment lookup is defined for; its value is the
    key the test suites use for it. *)
Definition USE_OPENAI : AuthType := "openai".

(** Modelled from the spec: [DEFAULT_QWEN_MODEL] is declared in
    [config/models.ts], which is not part of the sources at hand.  It is the
    fixed, named default identifier of the built-in provider-type; the
    registry documents it as the coder model and its test suite expects
    [coder-model]. *)
Definition DEFAULT_QWEN_MODEL : string := "coder-model".

Record ModelCapabilities := { vision : option bool }.

(** [ModelGenerationConfig] is an object of optional properties that the
    registry only ever copies with the spread operator.  It is the finite
    map of its own properties, so that a property that is present with the
    value [undefined] stays distinct from an absent one. *)
Abbreviation ModelGenerationConfig := (gmap string JsValue).

Module ModelConfig.
Record t := {
  id : option string;
  name : option string;
  description : option string;
  envKey : option string;
  baseUrl : option string;
  capabilities : option ModelCapabilities;
  generationConfig : option ModelGenerationConfig;
}.
End ModelConfig.

(** [Object.entries(modelProvidersConfig)]: the own properties of the
    configuration object, in the order the loop visits them. *)
Abbreviation ModelProvidersConfig := (list (string * list ModelConfig.t)).

Module Resolved.
Record t := {
  id : string;
  authType : AuthType;
  name : string;
  description : option string;
  envKey : option string;
  baseUrl : BaseUrl;
  capabilities : ModelCapabilities;
  generationConfig : ModelGenerationConfig;
}.
End Resolved.
Abbreviation ResolvedModelConfig := Resolved.t.

Module Available.
Record t := {
  id : string;
  label : string;
  description : option string;
  capabilities : option ModelCapabilities;
  authType : AuthType;
  isVision : bool;
}.
End Available.
Abbreviation AvailableModel := Available.t.

Inductive SelectionSource :=
| DEFAULT
| ENVIRONMENT
| SETTINGS
| PROGRAMMATIC_OVERRIDE
| USER_MANUAL.

Record ModelSwitchMetadata := {
  reason : option string;
  context : option string;
}.

Module CurrentModelInfo.
Record t := {
  authType : AuthType;
  modelId : string;
  model : ResolvedModelConfig;
  selectionSource : SelectionSource;
}.
End CurrentModelInfo.

Definition DEFAULT_GENERATION_CONFIG : ModelGenerationConfig :=
  <["temperature" := VNumber 0.7%Q]>
  (<["top_p" := VNumber 0.9%Q]>
  (<["max_tokens" := VNumber 4096%Q]>
  (<["timeout" := VNumber 60000%Q]>
  (<["maxRetries" := VNumber 3%Q]> ∅)))).

(** The object literal [DEFAULT_BASE_URLS], as the map of its own
    properties.  The expression [DEFAULT_BASE_URLS[authType]] is
    [DEFAULT_BASE_URLS_at] below. *)
Definition DEFAULT_BASE_URLS : gmap AuthType string :=
  <["qwen-oauth" := "https://dashscope.aliyuncs.com/compatible-mode/v1"]>
  (<["openai" := "https://api.openai.com/v1"]> ∅).

(** [DEFAULT_BASE_URLS[authType]]: an own property of the literal if there
    is one, else the member of that name inherited from [Object.prototype]
    if there is one, else [undefined]. *)
Definition DEFAULT_BASE_URLS_at (authType : AuthType) : option BaseUrl :=
  match DEFAULT_BASE_URLS !! authType with
  | Some url => Some (Url url)
  | None =>
      if decide (authType ∈ Object_prototype_members)
      then Some (InheritedMember authType)
      else None
  end.

(** [v || d] for what a read of [DEFAULT_BASE_URLS] yields. *)
Definition base_or_else (v : option BaseUrl) (d : BaseUrl) : BaseUrl :=
  match v with
  | Some (Url url) => if decide (url = "") then d else Url url
  | Some (InheritedMember name) => InheritedMember name
  | None => d
  end.

(** [s || d] for [s : string | undefined] and a default [d] that may be an
    inherited member. *)
Definition url_or_else (s : option string) (d : BaseUrl) : BaseUrl :=
  match s with
  | Some url => if decide (url = "") then d else Url url
  | None => d
  end.

(** ** [modelRegistry.ts] *)

(** The two entries of the array literal [QWEN_OAUTH_MODELS]. *)
Definition QWEN_CODER_MODEL : ModelConfig.t :=
  {| ModelConfig.id := Some "coder-model";
     ModelConfig.name := Some "Qwen Coder";
     ModelConfig.description := Some
       "The latest Qwen Coder model from Alibaba Cloud ModelStudio (version: qwen3-coder-plus-2025-09-23)";
     ModelConfig.envKey := None;
     ModelConfig.baseUrl := None;
     ModelConfig.capabilities := Some {| vision := Some false |};
     ModelConfig.generationConfig := Some
       (<["temperature" := VNumber 0.7%Q]>
       (<["top_p" := VNumber 0.9%Q]>
       (<["max_tokens" := VNumber 8192%Q]>
       (<["timeout" := VNumber 60000%Q]>
       (<["maxRetries" := VNumber 3%Q]> ∅))))) |}.

Definition QWEN_VISION_MODEL : ModelConfig.t :=
  {| ModelConfig.id := Some "vision-model";
     ModelConfig.name := Some "Qwen Vision";
     ModelConfig.description := Some
       "The latest Qwen Vision model from Alibaba Cloud ModelStudio (version: qwen3-vl-plus-2025-09-23)";
     ModelConfig.envKey := None;
     ModelConfig.baseUrl := None;
     ModelConfig.capabilities := Some {| vision := Some true |};
     ModelConfig.generationConfig := Some
       (<["temperature" := VNumber 0.7%Q]>
       (<["top_p" := VNumber 0.9%Q]>
       (<["max_tokens" := VNumber 8192%Q]>
       (<["timeout" := VNumber 60000%Q]>
       (<["maxRetries" := VNumber 3%Q]> ∅))))) |}.

Definition QWEN_OAUTH_MODELS : list ModelConfig.t :=
  [ QWEN_CODER_MODEL; QWEN_VISION_MODEL ].

Record ModelRegistry := {
  modelsByAuthType : OMap.t (OMap.t ResolvedModelConfig);
  modelIdToAuthTypes : gmap string (list AuthType);
}.

(** The message of the exception [validateModelConfig] throws. *)
Definition missing_id_message (authType : AuthType) : string :=
  "Model config in authType '" +:+ authType +:+ "' missing required field: id".

(** [validateModelConfig] throws when [!config.id].  The source returns
    nothing; the embedding hands back the identifier it has just checked,
    which is the non-empty string every later read of [config.id] yields. *)
Definition validateModelConfig (config : ModelConfig.t) (authType : AuthType)
  : result string :=
  match ModelConfig.id config with
  | Some i =>
      if decide (i = "") then Throw (Error (missing_id_message authType))
      else Ok i
  | None => Throw (Error (missing_id_message authType))
  end.

(** [{ ...DEFAULT_GENERATION_CONFIG, ...config }]: the properties of
    [config] win, the others come from the defaults. *)
Definition mergeGenerationConfig (config : option ModelGenerationConfig)
  : ModelGenerationConfig :=
  match config with
  | None => DEFAULT_GENERATION_CONFIG
  | Some c => c ∪ DEFAULT_GENERATION_CONFIG
  end.

Definition resolveModelConfig (config : ModelConfig.t) (authType : AuthType)
  : result ResolvedModelConfig :=
  try! id := validateModelConfig config authType in
  let defaultBaseUrl := base_or_else (DEFAULT_BASE_URLS_at authType) "" in
  Ok {| Resolved.id := id;
        Resolved.description := ModelConfig.description config;
        Resolved.envKey := ModelConfig.envKey config;
        Resolved.authType := authType;
        Resolved.name := or_else (ModelConfig.name config) id;
        Resolved.baseUrl := url_or_else (ModelConfig.baseUrl config) defaultBaseUrl;
        Resolved.generationConfig :=
          mergeGenerationConfig (ModelConfig.generationConfig config);
        Resolved.capabilities :=
          default {| vision := None |} (ModelConfig.capabilities config) |}.

(** The body of the loop of [registerAuthTypeModels], over the models that
    are left; [modelMap] is the map under construction and [index] the
    reverse index of the registry.  The array stored in the reverse index is
    extended in place by [push]. *)
Fixpoint register_models (authType : AuthType) (models : list ModelConfig.t)
    (modelMap : OMap.t ResolvedModelConfig)
    (index : gmap string (list AuthType))
  : result (OMap.t ResolvedModelConfig * gmap string (list AuthType)) :=
  match models with
  | [] => Ok (modelMap, index)
  | config :: rest =>
      try! resolved := resolveModelConfig config authType in
      let id := Resolved.id resolved in
      let existingAuthTypes := default [] (index !! id) in
      register_models authType rest
        (OMap.set id resolved modelMap)
        (<[id := existingAuthTypes ++ [authType]]> index)
  end.

Definition registerAuthTypeModels (authType : AuthType)
    (models : list ModelConfig.t) (this : ModelRegistry)
  : result ModelRegistry :=
  try! (modelMap, index) :=
    register_models authType models OMap.empty (modelIdToAuthTypes this) in
  Ok {| modelsByAuthType := OMap.set authType modelMap (modelsByAuthType this);
        modelIdToAuthTypes := index |}.

(** The loop of the constructor over the entries of the configuration. *)
Fixpoint register_entries (entries : ModelProvidersConfig)
    (this : ModelRegistry) : result ModelRegistry :=
  match entries with
  | [] => Ok this
  | (authType, models) :: rest =>
      if decide (authType = QWEN_OAUTH) then register_entries rest this
      else
        try! this' := registerAuthTypeModels authType models this in
        register_entries rest this'
  end.

(** [new ModelRegistry(modelProvidersConfig)].  An exception leaves the
    caller without a registry. *)
Definition ModelRegistry_new (modelProvidersConfig : option ModelProvidersConfig)
  : result ModelRegistry :=
  try! this := registerAuthTypeModels QWEN_OAUTH QWEN_OAUTH_MODELS
      {| modelsByAuthType := OMap.empty; modelIdToAuthTypes := ∅ |} in
  match modelProvidersConfig with
  | Some entries => register_entries entries this
  | None => Ok this
  end.

Definition getModelsForAuthType (this : ModelRegistry) (authType : AuthType)
  : list AvailableModel :=
  match OMap.get authType (modelsByAuthType this) with
  | None => []
  | Some models =>
      (λ model,
        {| Available.id := Resolved.id model;
           Available.label := Resolved.name model;
           Available.description := Resolved.description model;
           Available.capabilities := Some (Resolved.capabilities model);
           Available.authType := Resolved.authType model;
           Available.isVision :=
             default false (vision (Resolved.capabilities model)) |})
      <$> OMap.values models
  end.

Definition getAvailableAuthTypes (this : ModelRegistry) : list AuthType :=
  OMap.keys (modelsByAuthType this).

Definition getModel (this : ModelRegistry) (authType : AuthType)
    (modelId : string) : option ResolvedModelConfig :=
  match OMap.get authType (modelsByAuthType this) with
  | Some models => OMap.get modelId models
  | None => None
  end.

Definition hasModel (this : ModelRegistry) (authType : AuthType)
    (modelId : string) : bool :=
  match OMap.get authType (modelsByAuthType this) with
  | Some models => OMap.has modelId models
  | None => false
  end.

Definition getFirstModelForAuthType (this : ModelRegistry)
    (authType : AuthType) : option ResolvedModelConfig :=
  match OMap.get authType (modelsByAuthType this) with
  | None => None
  | Some models =>
      if decide (OMap.size models = 0) then None
      else head (OMap.values models)
  end.

Definition getDefaultModelForAuthType (this : ModelRegistry)
    (authType : AuthType) : option ResolvedModelConfig :=
  if decide (authType = QWEN_OAUTH)
  then getModel this authType DEFAULT_QWEN_MODEL
  else getFirstModelForAuthType this authType.

Definition hasAuthType (this : ModelRegistry) (authType : AuthType) : bool :=
  match OMap.get authType (modelsByAuthType this) with
  | Some models => bool_decide (0 < OMap.size models)
  | None => false
  end.

Definition getTotalModelCount (this : ModelRegistry) : nat :=
  foldl (λ count models, count + OMap.size models) 0
    (OMap.values (modelsByAuthType this)).

(** [findAuthTypesForModel(modelId, preferredAuthType?)]. *)
Definition findAuthTypesForModel (this : ModelRegistry) (modelId : string)
    (preferredAuthType : option AuthType) : list AuthType :=
  let authTypes := default [] (modelIdToAuthTypes this !! modelId) in
  match preferredAuthType with
  | None => authTypes
  | Some preferred =>
      if decide (preferred = "") then authTypes
      else if decide (preferred ∈ authTypes)
      then preferred :: filter (λ at', at' ≠ preferred) authTypes
      else authTypes
  end.

(** ** [modelSelectionManager.ts] *)

(** The change-notification callback, by what [await] observes of one
    invocation of it: [None] when the promise is fulfilled, [Some error]
    when the call throws or the promise is rejected with [error].  The
    callback is taken not to call back into the manager it is registered
    with.  What a callback does may depend on its earlier invocations; the
    properties below say what one call of [switchModel] does given how the
    callback's invocation in that call ends, and none of them relates the
    outcomes of two invocations. *)
Definition ModelChangeCallback : Type :=
  AuthType → ResolvedModelConfig → option JsError.

Module Options.
Record t := {
  initialAuthType : option AuthType;
  initialModelId : option string;
  onModelChange : option ModelChangeCallback;
  modelProvidersConfig : option ModelProvidersConfig;
}.
End Options.
Abbreviation ModelSelectionManagerOptions := Options.t.

Record ModelSelectionManager := {
  modelRegistry : ModelRegistry;
  currentAuthType : AuthType;
  currentModelId : string;
  selectionSource : SelectionSource;
  selectionTimestamp : Z;
  onModelChange : option ModelChangeCallback;
}.

(** Assignments to the fields of [this]. *)
Definition set_currentModelId (v : string) (this : ModelSelectionManager) :=
  {| modelRegistry := modelRegistry this;
     currentAuthType := currentAuthType this;
     currentModelId := v;
     selectionSource := selectionSource this;
     selectionTimestamp := selectionTimestamp this;
     onModelChange := onModelChange this |}.

Definition set_selectionSource (v : SelectionSource)
    (this : ModelSelectionManager) :=
  {| modelRegistry := modelRegistry this;
     currentAuthType := currentAuthType this;
     currentModelId := currentModelId this;
     selectionSource := v;
     selectionTimestamp := selectionTimestamp this;
     onModelChange := onModelChange this |}.

Definition set_selectionTimestamp (v : Z) (this : ModelSelectionManager) :=
  {| modelRegistry := modelRegistry this;
     currentAuthType := currentAuthType this;
     currentModelId := currentModelId this;
     selectionSource := selectionSource this;
     selectionTimestamp := v;
     onModelChange := onModelChange this |}.

Definition setOnModelChange (callback : ModelChangeCallback)
    (this : ModelSelectionManager) :=
  {| modelRegistry := modelRegistry this;
     currentAuthType := currentAuthType this;
     currentModelId := currentModelId this;
     selectionSource := selectionSource this;
     selectionTimestamp := selectionTimestamp this;
     onModelChange := Some callback |}.

(** [process.env]. *)
Definition Env : Type := string → option string.

Definition getModelFromEnvironment (env : Env) (this : ModelSelectionManager)
  : option string :=
  if decide (currentAuthType this = USE_OPENAI) then env "OPENAI_MODEL"
  else None.

Definition initializeDefaultSelection (env : Env)
    (this : ModelSelectionManager) : ModelSelectionManager :=
  if negb (falsy (Some (currentModelId this)))
     && hasModel (modelRegistry this) (currentAuthType this)
          (currentModelId this)
  then set_selectionSource SETTINGS this
  else
    (* the code after the two early returns *)
    let registry_default :=
      match getDefaultModelForAuthType (modelRegistry this)
              (currentAuthType this) with
      | Some defaultModel =>
          set_selectionSource DEFAULT
            (set_currentModelId (Resolved.id defaultModel) this)
      | None => this
      end in
    match getModelFromEnvironment env this with
    | Some envModel =>
        if negb (falsy (Some envModel))
           && hasModel (modelRegistry this) (currentAuthType this) envModel
        then set_selectionSource ENVIRONMENT (set_currentModelId envModel this)
        else registry_default
    | None => registry_default
    end.

(** [new ModelSelectionManager(options)], run in the environment [env] at
    the time [now]. *)
Definition ModelSelectionManager_new (env : Env) (now : Z)
    (options : ModelSelectionManagerOptions) : result ModelSelectionManager :=
  try! registry := ModelRegistry_new (Options.modelProvidersConfig options) in
  Ok (initializeDefaultSelection env
        {| modelRegistry := registry;
           onModelChange := Options.onModelChange options;
           currentAuthType := or_else (Options.initialAuthType options) QWEN_OAUTH;
           currentModelId := or_else (Options.initialModelId options) "";
           selectionSource := DEFAULT;
           selectionTimestamp := now |}).

Definition switch_not_found_message (modelId : string) (authType : AuthType)
  : string :=
  "Model '" +:+ modelId +:+ "' not found for authType '" +:+ authType +:+ "'".

(** [await this.switchModel(modelId, source, _metadata)], run at the time
    [now]: the manager after the call, and how the call ended. *)
Definition switchModel (now : Z) (modelId : string) (source : SelectionSource)
    (_metadata : option ModelSwitchMetadata) (this : ModelSelectionManager)
  : ModelSelectionManager * result unit :=
  match getModel (modelRegistry this) (currentAuthType this) modelId with
  | None =>
      (this,
       Throw (Error (switch_not_found_message modelId (currentAuthType this))))
  | Some model =>
      let previousModelId := currentModelId this in
      let this' :=
        set_selectionTimestamp now
          (set_selectionSource source (set_currentModelId modelId this)) in
      match onModelChange this' with
      | None => (this', Ok ())
      | Some callback =>
          match callback (currentAuthType this') model with
          | None => (this', Ok ())
          | Some error => (set_currentModelId previousModelId this', Throw error)
          end
      end
  end.

Definition getAvailableModels (this : ModelSelectionManager)
  : list AvailableModel :=
  getModelsForAuthType (modelRegistry this) (currentAuthType this).

Definition getCurrentAuthType (this : ModelSelectionManager) : AuthType :=
  currentAuthType this.

Definition getCurrentModelId (this : ModelSelectionManager) : string :=
  currentModelId this.

Definition no_model_selected_message : string := "No model selected".

Definition current_not_found_message (modelId : string) (authType : AuthType)
  : string :=
  "Current model '" +:+ modelId +:+ "' not found for authType '"
    +:+ authType +:+ "'".

Definition getCurrentModel (this : ModelSelectionManager)
  : result CurrentModelInfo.t :=
  if falsy (Some (currentModelId this))
  then Throw (Error no_model_selected_message)
  else
    match getModel (modelRegistry this) (currentAuthType this)
            (currentModelId this) with
    | None =>
        Throw (Error (current_not_found_message (currentModelId this)
                        (currentAuthType this)))
    | Some model =>
        Ok {| CurrentModelInfo.authType := currentAuthType this;
              CurrentModelInfo.modelId := currentModelId this;
              CurrentModelInfo.model := model;
              CurrentModelInfo.selectionSource := selectionSource this |}
    end.

Definition getSelectionSource (this : ModelSelectionManager) : SelectionSource :=
  selectionSource this.

Definition getSelectionTimestamp (this : ModelSelectionManager) : Z :=
  selectionTimestamp this.

(** ** Vocabulary of the specification *)

(** A model definition "whose identifier is empty or missing". *)
Definition malformed (config : ModelConfig.t) : Prop :=
  falsy (ModelConfig.id config) = true.

(** The entries of a providers configuration that are registered: the ones
    under another key than the built-in provider-type. *)
Definition user_entries (cfg : ModelProvidersConfig) : ModelProvidersConfig :=
  filter (λ entry, entry.1 ≠ QWEN_OAUTH) cfg.

(** The provider-type [authType] registers [modelId] once for every
    definition with that identifier in [models]. *)
Definition registrations_of (modelId : string) (authType : AuthType)
    (models : list ModelConfig.t) : list AuthType :=
  (λ _, authType)
    <$> filter (λ config, ModelConfig.id config = Some modelId) models.

(** The provider-types that register [modelId] in the registry of [cfg],
    in the order of their registration: the built-in catalog first, then
    the entries of the configuration that are not under the built-in key. *)
Definition registrations (modelId : string) (cfg : ModelProvidersConfig)
  : list AuthType :=
  registrations_of modelId QWEN_OAUTH QWEN_OAUTH_MODELS
  ++ (user_entries cfg
        ≫= λ entry, registrations_of modelId entry.1 entry.2).

(** What the catalog promises of the definition [r] stored under the
    identifier [modelId] of the provider-type [authType], in the words of
    [ResolvedModelConfig]: the provider-type comes from the map key, and
    name, base-URL and generation parameters are always present. *)
Definition well_resolved (authType : AuthType) (modelId : string)
    (r : ResolvedModelConfig) : Prop :=
  Resolved.id r = modelId
  ∧ Resolved.authType r = authType
  ∧ modelId ≠ ""
  ∧ Resolved.name r ≠ ""
  ∧ (∀ key, is_Some (DEFAULT_GENERATION_CONFIG !! key) →
            is_Some (Resolved.generationConfig r !! key))
  ∧ (is_Some (DEFAULT_BASE_URLS !! authType) → Resolved.baseUrl r ≠ "").

(** ** Sample inputs, after the test suites *)

Definition model_config (id : string) (name baseUrl : option string)
  : ModelConfig.t :=
  {| ModelConfig.id := Some id;
     ModelConfig.name := name;
     ModelConfig.description := None;
     ModelConfig.envKey := None;
     ModelConfig.baseUrl := baseUrl;
     ModelConfig.capabilities := None;
     ModelConfig.generationConfig := None |}.

(** [defaultConfig] of [modelSelectionManager.test.ts]. *)
Definition defaultConfig : ModelProvidersConfig :=
  [ ("openai",
     [ model_config "gpt-4-turbo" (Some "GPT-4 Turbo")
         (Some "https://api.openai.com/v1");
       model_config "gpt-3.5-turbo" (Some "GPT-3.5 Turbo")
         (Some "https://api.openai.com/v1");
       model_config "deepseek-coder" (Some "DeepSeek Coder")
         (Some "https://api.deepseek.com/v1") ]) ].

Definition empty_registry : ModelRegistry :=
  {| modelsByAuthType := OMap.empty; modelIdToAuthTypes := ∅ |}.

Definition registry_of (cfg : option ModelProvidersConfig) : ModelRegistry :=
  match ModelRegistry_new cfg with
  | Ok r => r
  | Throw _ => empty_registry
  end.

Definition no_env : Env := λ _, None.

Definition failing_callback : ModelChangeCallback :=
  λ _ _, Some (Error "reconnect failed").

(** The manager of the [switchModel] tests, with a callback that fails. *)
Definition sample_manager : ModelSelectionManager :=
  {| modelRegistry := registry_of (Some defaultConfig);
     currentAuthType := USE_OPENAI;
     currentModelId := "gpt-4-turbo";
     selectionSource := SETTINGS;
     selectionTimestamp := 1000;
     onModelChange := Some failing_callback |}.

(** After the [getModel] tests of the registry: two generation parameters
    supplied, the others left to the defaults, and a base-URL that is not
    the default of the provider-type. *)
Definition tuned_config : ModelConfig.t :=
  {| ModelConfig.id := Some "gpt-4-turbo";
     ModelConfig.name := Some "GPT-4 Turbo";
     ModelConfig.description := None;
     ModelConfig.envKey := None;
     ModelConfig.baseUrl := Some "https://api.deepseek.com/v1";
     ModelConfig.capabilities := None;
     ModelConfig.generationConfig := Some
       (<["temperature" := VNumber 0.8%Q]>
       (<["max_tokens" := VNumber 4096%Q]> ∅)) |}.

Definition resolved_of (config : ModelConfig.t) (authType : AuthType)
  : ResolvedModelConfig :=
  match resolveModelConfig config authType with
  | Ok r => r
  | Throw _ =>
      {| Resolved.id := ""; Resolved.authType := authType;
         Resolved.name := ""; Resolved.description := None;
         Resolved.envKey := None; Resolved.baseUrl := "";
         Resolved.capabilities := {| vision := None |};
         Resolved.generationConfig := ∅ |}
  end.

(** The configuration of the [findAuthTypesForModel] tests: one identifier
    under two provider-types. *)
Definition sharedConfig : ModelProvidersConfig :=
  [ ("openai", [model_config "shared-model" (Some "Shared") None]);
    ("gemini-api-key", [model_config "shared-model" (Some "Shared Gemini") None]) ].

(** Options of the initialization tests of the manager: the provider-type
    [openai] with a persisted identifier, over a providers configuration. *)
Definition openai_options (initialModelId : option string)
    (cfg : ModelProvidersConfig) : ModelSelectionManagerOptions :=
  {| Options.initialAuthType := Some USE_OPENAI;
     Options.initialModelId := initialModelId;
     Options.onModelChange := None;
     Options.modelProvidersConfig := Some cfg |}.

Definition manager_of (env : Env) (now : Z)
    (options : ModelSelectionManagerOptions) : ModelSelectionManager :=
  match ModelSelectionManager_new env now options with
  | Ok this => this
  | Throw _ =>
      {| modelRegistry := empty_registry; currentAuthType := "";
         currentModelId := ""; selectionSource := DEFAULT;
         selectionTimestamp := 0; onModelChange := None |}
  end.

Definition openai_model_env (value : string) : Env :=
  λ name, if decide (name = "OPENAI_MODEL") then Some value else None.

(** An entry that defines the identifier [gpt-4] twice. *)
Definition repeatedConfig : ModelProvidersConfig :=
  [ ("openai", [ model_config "gpt-4" (Some "First") None;
                 model_config "gpt-3.5" None None;
                 model_config "gpt-4" (Some "Second") None ]) ].

(** * Properties *)

(** ** Insertion-ordered maps *)

Section OMapFacts.
Context {V : Type}.
Implicit Types (m : OMap.t V) (k : string) (v : V).

Lemma omap_get_set_eq k v m : OMap.get k (OMap.set k v m) = Some v.
Proof.
  induction m as [|[k' v'] m IH]; simpl.
  - by rewrite decide_True.
  - destruct (decide (k = k')) as [->|Hne]; simpl.
    + by rewrite decide_True.
    + by rewrite decide_False.
Qed.

Lemma omap_get_set_ne k k' v m :
  k ≠ k' → OMap.get k' (OMap.set k v m) = OMap.get k' m.
Proof.
  intros Hne. induction m as [|[k0 v0] m IH]; simpl.
  - by rewrite decide_False.
  - destruct (decide (k = k0)) as [->|Hk]; simpl.
    + by rewrite !decide_False.
    + by rewrite IH.
Qed.

Lemma omap_set_head_key k v m :
  m ≠ [] → head (OMap.keys (OMap.set k v m)) = head (OMap.keys m).
Proof.
  destruct m as [|[k' v'] m]; [done|]. intros _. simpl.
  by destruct (decide (k = k')) as [->|].
Qed.

Lemma omap_set_nonempty k v m : OMap.set k v m ≠ [].
Proof.
  destruct m as [|[k' v'] m]; simpl; [done|]. by destruct (decide (k = k')).
Qed.

Lemma omap_has_set k k' v m :
  OMap.has k' (OMap.set k v m) = true ↔ k' = k ∨ OMap.has k' m = true.
Proof.
  unfold OMap.has. destruct (decide (k = k')) as [->|Hne].
  - rewrite omap_get_set_eq. split; [by left|done].
  - rewrite omap_get_set_ne by done. split; [by right|].
    intros [->|?]; done.
Qed.

End OMapFacts.

(** ** The manager's queries and its switch operation *)

Lemma hasModel_getModel reg authType modelId :
  hasModel reg authType modelId = false ↔ getModel reg authType modelId = None.
Proof.
  unfold hasModel, getModel, OMap.has.
  destruct (OMap.get authType (modelsByAuthType reg)) as [models|]; [|done].
  by destruct (OMap.get modelId models).
Qed.

(** C1. When the target exists for the current provider-type and the
    change-notification callback fails, [switchModel] ends with the
    callback's own error, the current identifier is back at its value from
    before the call, and the selection source and timestamp are those of the
    attempt; nothing else of the manager changes. *)
Theorem switchModel_callback_failure_rolls_back
    (now : Z) (modelId : string) (source : SelectionSource)
    (metadata : option ModelSwitchMetadata) (this : ModelSelectionManager)
    (model : ResolvedModelConfig) (callback : ModelChangeCallback)
    (error : JsError) :
  getModel (modelRegistry this) (currentAuthType this) modelId = Some model →
  onModelChange this = Some callback →
  callback (currentAuthType this) model = Some error →
  let after := (switchModel now modelId source metadata this).1 in
  (switchModel now modelId source metadata this).2 = Throw error
  ∧ currentModelId after = currentModelId this
  ∧ selectionSource after = source
  ∧ selectionTimestamp after = now
  ∧ currentAuthType after = currentAuthType this
  ∧ modelRegistry after = modelRegistry this
  ∧ onModelChange after = onModelChange this.
Proof.
  intros Hmodel Hcb Herr. unfold switchModel. rewrite Hmodel. simpl.
  rewrite Hcb, Herr. simpl. by rewrite Hcb.
Qed.

Lemma switchModel_callback_failure_witness :
  getModel (modelRegistry sample_manager) (currentAuthType sample_manager)
    "gpt-3.5-turbo" ≠ None
  ∧ (switchModel 2000 "gpt-3.5-turbo" USER_MANUAL None sample_manager).2
    = Throw (Error "reconnect failed")
  ∧ currentModelId
      (switchModel 2000 "gpt-3.5-turbo" USER_MANUAL None sample_manager).1
    = "gpt-4-turbo"
  ∧ selectionSource
      (switchModel 2000 "gpt-3.5-turbo" USER_MANUAL None sample_manager).1
    = USER_MANUAL
  ∧ selectionTimestamp
      (switchModel 2000 "gpt-3.5-turbo" USER_MANUAL None sample_manager).1
    = 2000%Z.
Proof.
  destruct (getModel (modelRegistry sample_manager)
              (currentAuthType sample_manager) "gpt-3.5-turbo")
    as [model|] eqn:Hmodel; [|by vm_compute in Hmodel].
  split; [done|].
  destruct (switchModel_callback_failure_rolls_back 2000 "gpt-3.5-turbo"
              USER_MANUAL None sample_manager model failing_callback
              (Error "reconnect failed") Hmodel eq_refl eq_refl)
    as (Hout & Hid & Hsrc & Hts & _).
  auto.
Defined.

(** C2. When the target identifier is absent from the registry for the
    current provider-type, [switchModel] ends with the not-found error and
    the manager is the one from before the call: provider-type, identifier,
    source and timestamp are all unchanged. *)
Theorem switchModel_unknown_model_untouched
    (now : Z) (modelId : string) (source : SelectionSource)
    (metadata : option ModelSwitchMetadata) (this : ModelSelectionManager) :
  hasModel (modelRegistry this) (currentAuthType this) modelId = false →
  switchModel now modelId source metadata this
  = (this,
     Throw (Error (switch_not_found_message modelId (currentAuthType this)))).
Proof.
  intros Habsent%hasModel_getModel. unfold switchModel. by rewrite Habsent.
Qed.

Lemma switchModel_unknown_model_witness :
  hasModel (modelRegistry sample_manager) (currentAuthType sample_manager)
    "non-existent" = false
  ∧ switchModel 2000 "non-existent" USER_MANUAL None sample_manager
    = (sample_manager,
       Throw (Error "Model 'non-existent' not found for authType 'openai'")).
Proof.
  assert (hasModel (modelRegistry sample_manager)
            (currentAuthType sample_manager) "non-existent" = false) as H
    by (vm_compute; reflexivity).
  split; [exact H|].
  exact (switchModel_unknown_model_untouched 2000 "non-existent" USER_MANUAL
           None sample_manager H).
Defined.

(** C5. The two accessors are plain reads of the state.  [getCurrentModel]
    ends with the no-selection error exactly when the current identifier is
    empty, with the not-found error when the identifier is not empty and the
    registry does not resolve it for the current provider-type, and
    otherwise returns provider-type, identifier, resolved definition and
    source. *)
Theorem getCurrentModel_outcomes (this : ModelSelectionManager) :
  getCurrentAuthType this = currentAuthType this
  ∧ getCurrentModelId this = currentModelId this
  ∧ (getCurrentModel this = Throw (Error no_model_selected_message)
     ↔ currentModelId this = "")
  ∧ (currentModelId this ≠ "" →
     getModel (modelRegistry this) (currentAuthType this) (currentModelId this)
       = None →
     getCurrentModel this
     = Throw (Error (current_not_found_message (currentModelId this)
                       (currentAuthType this))))
  ∧ (∀ model,
       currentModelId this ≠ "" →
       getModel (modelRegistry this) (currentAuthType this)
         (currentModelId this) = Some model →
       getCurrentModel this
       = Ok {| CurrentModelInfo.authType := currentAuthType this;
               CurrentModelInfo.modelId := currentModelId this;
               CurrentModelInfo.model := model;
               CurrentModelInfo.selectionSource := selectionSource this |}).
Proof.
  unfold getCurrentModel, falsy. repeat split; try done.
  - case_bool_decide as Hid; [done|].
    destruct (getModel _ _ _); [done|]. by intros [= ?].
  - intros ->. by rewrite bool_decide_eq_true_2.
  - intros Hid Hnone. by rewrite bool_decide_eq_false_2, Hnone.
  - intros model Hid Hsome. by rewrite bool_decide_eq_false_2, Hsome.
Qed.

Lemma getCurrentModel_outcomes_witness :
  currentModelId sample_manager ≠ ""
  ∧ ∃ model,
      getCurrentModel sample_manager
      = Ok {| CurrentModelInfo.authType := "openai";
              CurrentModelInfo.modelId := "gpt-4-turbo";
              CurrentModelInfo.model := model;
              CurrentModelInfo.selectionSource := SETTINGS |}.
Proof.
  assert (currentModelId sample_manager ≠ "") as Hid by done.
  split; [exact Hid|].
  destruct (getModel (modelRegistry sample_manager)
              (currentAuthType sample_manager) (currentModelId sample_manager))
    as [model|] eqn:Hmodel; [|by vm_compute in Hmodel].
  exists model.
  destruct (getCurrentModel_outcomes sample_manager) as (_ & _ & _ & _ & Hok).
  exact (Hok model Hid Hmodel).
Defined.

(** ** Resolution of a model definition *)

Lemma DEFAULT_BASE_URLS_lookup (authType : AuthType) :
  DEFAULT_BASE_URLS !! authType
  = if decide (authType = "qwen-oauth")
    then Some "https://dashscope.aliyuncs.com/compatible-mode/v1"
    else if decide (authType = "openai") then Some "https://api.openai.com/v1"
    else None.
Proof.
  unfold DEFAULT_BASE_URLS. rewrite !lookup_insert, lookup_empty.
  repeat case_decide; congruence.
Qed.


Lemma defaultBaseUrl_at (authType : AuthType) :
  base_or_else (DEFAULT_BASE_URLS_at authType) ""
  = match DEFAULT_BASE_URLS !! authType with
    | Some url => Url url
    | None =>
        if decide (authType ∈ Object_prototype_members)
        then InheritedMember authType
        else Url ""
    end.
Proof.
  unfold base_or_else, DEFAULT_BASE_URLS_at. rewrite DEFAULT_BASE_URLS_lookup.
  by repeat case_decide.
Qed.

Lemma resolveModelConfig_Ok config authType r :
  resolveModelConfig config authType = Ok r →
  ∃ id, ModelConfig.id config = Some id ∧ id ≠ ""
    ∧ r = {| Resolved.id := id;
             Resolved.description := ModelConfig.description config;
             Resolved.envKey := ModelConfig.envKey config;
             Resolved.authType := authType;
             Resolved.name := or_else (ModelConfig.name config) id;
             Resolved.baseUrl :=
               url_or_else (ModelConfig.baseUrl config)
                 (base_or_else (DEFAULT_BASE_URLS_at authType) "");
             Resolved.generationConfig :=
               mergeGenerationConfig (ModelConfig.generationConfig config);
             Resolved.capabilities :=
               default {| vision := None |} (ModelConfig.capabilities config) |}.
Proof.
  unfold resolveModelConfig, validateModelConfig.
  destruct (ModelConfig.id config) as [id|]; [|done].
  case_decide; [done|]. simpl. intros [= <-]. by exists id.
Qed.

Lemma resolveModelConfig_Throw config authType e :
  resolveModelConfig config authType = Throw e →
  falsy (ModelConfig.id config) = true
  ∧ e = Error (missing_id_message authType).
Proof.
  unfold resolveModelConfig, validateModelConfig, falsy.
  destruct (ModelConfig.id config) as [id|]; simpl.
  - case_decide; simpl; [|done]. intros [= <-]. by rewrite bool_decide_eq_true_2.
  - by intros [= <-].
Qed.

Lemma resolveModelConfig_falsy config authType :
  falsy (ModelConfig.id config) = true →
  resolveModelConfig config authType = Throw (Error (missing_id_message authType)).
Proof.
  unfold resolveModelConfig, validateModelConfig, falsy.
  destruct (ModelConfig.id config) as [id|]; [|done].
  intros Hid%bool_decide_eq_true. by rewrite decide_True.
Qed.

(** C7, as the code has it.  The generation parameters of a resolved
    definition are those of the definition where it has the property, and
    the global defaults ([top_p] 0.9, [timeout] 60000 and the like) for
    every property it does not have; a supplied base-URL that is not the
    empty string is kept verbatim. *)
Theorem resolution_merges_field_by_field
    (config : ModelConfig.t) (authType : AuthType) (r : ResolvedModelConfig) :
  resolveModelConfig config authType = Ok r →
  let supplied := default ∅ (ModelConfig.generationConfig config) in
  (∀ k v, supplied !! k = Some v → Resolved.generationConfig r !! k = Some v)
  ∧ (∀ k, supplied !! k = None →
          Resolved.generationConfig r !! k = DEFAULT_GENERATION_CONFIG !! k)
  ∧ DEFAULT_GENERATION_CONFIG !! "temperature" = Some (VNumber 0.7%Q)
  ∧ DEFAULT_GENERATION_CONFIG !! "top_p" = Some (VNumber 0.9%Q)
  ∧ DEFAULT_GENERATION_CONFIG !! "max_tokens" = Some (VNumber 4096%Q)
  ∧ DEFAULT_GENERATION_CONFIG !! "timeout" = Some (VNumber 60000%Q)
  ∧ DEFAULT_GENERATION_CONFIG !! "maxRetries" = Some (VNumber 3%Q)
  ∧ (∀ u, ModelConfig.baseUrl config = Some u → u ≠ "" →
          Resolved.baseUrl r = u).
Proof.
  intros (id & _ & _ & ->)%resolveModelConfig_Ok supplied. simpl.
  repeat split; try by vm_compute.
  - intros k v Hk. subst supplied. unfold mergeGenerationConfig.
    destruct (ModelConfig.generationConfig config) as [c|]; simpl in *.
    + by rewrite lookup_union, Hk, union_Some_l.
    + by rewrite lookup_empty in Hk.
  - intros k Hk. subst supplied. unfold mergeGenerationConfig.
    destruct (ModelConfig.generationConfig config) as [c|]; simpl in *.
    + by rewrite lookup_union, Hk, (left_id_L None _).
    + done.
  - intros u -> Hu. simpl. by rewrite decide_False.
Qed.

Lemma resolution_merges_field_by_field_witness :
  resolveModelConfig tuned_config "openai"
    = Ok (resolved_of tuned_config "openai")
  ∧ Resolved.generationConfig (resolved_of tuned_config "openai") !! "temperature"
    = Some (VNumber 0.8%Q)
  ∧ Resolved.generationConfig (resolved_of tuned_config "openai") !! "top_p"
    = Some (VNumber 0.9%Q)
  ∧ Resolved.baseUrl (resolved_of tuned_config "openai")
    = "https://api.deepseek.com/v1".
Proof.
  assert (resolveModelConfig tuned_config "openai"
          = Ok (resolved_of tuned_config "openai")) as Hres by reflexivity.
  split; [exact Hres|].
  destruct (resolution_merges_field_by_field tuned_config "openai" _ Hres)
    as (Hsup & Hdef & _ & Htop & _ & _ & _ & Hurl).
  split; [|split].
  - apply Hsup. by vm_compute.
  - rewrite Hdef; [exact Htop | by vm_compute].
  - by apply Hurl.
Defined.

(** C7, as stated, fails: a base-URL supplied as the empty string is not
    kept, the resolved definition has the provider-type's default. *)
Lemma supplied_baseUrl_kept_counterexample :
  ¬ (∀ (config : ModelConfig.t) (authType : AuthType)
       (r : ResolvedModelConfig) (u : string),
       resolveModelConfig config authType = Ok r →
       ModelConfig.baseUrl config = Some u →
       Resolved.baseUrl r = u).
Proof.
  intros Hclaim.
  specialize (Hclaim (model_config "gpt-4" (Some "GPT-4") (Some "")) "openai"
                _ "" eq_refl eq_refl).
  by vm_compute in Hclaim.
Qed.




(** ** Construction of the registry *)

Lemma register_models_Throw authType models modelMap index e :
  register_models authType models modelMap index = Throw e →
  e = Error (missing_id_message authType) ∧ Exists malformed models.
Proof.
  revert modelMap index.
  induction models as [|config rest IH]; intros modelMap index; simpl; [done|].
  destruct (resolveModelConfig config authType) as [r|e'] eqn:Hres; simpl.
  - intros [-> Hrest]%IH. split; [done|]. by apply Exists_cons_tl.
  - intros [= ->]. apply resolveModelConfig_Throw in Hres as [Hid ->].
    split; [done|]. by apply Exists_cons_hd.
Qed.

Lemma register_models_Ok authType models modelMap index out :
  register_models authType models modelMap index = Ok out →
  Forall (λ config, ¬ malformed config) models.
Proof.
  revert modelMap index.
  induction models as [|config rest IH]; intros modelMap index; simpl;
    [by constructor|].
  destruct (resolveModelConfig config authType) as [r|e'] eqn:Hres;
    simpl; [|done].
  intros Hrest%IH. constructor; [|done].
  intros Hbad. by rewrite (resolveModelConfig_falsy _ _ Hbad) in Hres.
Qed.

Lemma registerAuthTypeModels_Ok authType models this this' :
  registerAuthTypeModels authType models this = Ok this' →
  ∃ modelMap,
    register_models authType models OMap.empty (modelIdToAuthTypes this)
      = Ok (modelMap, modelIdToAuthTypes this')
    ∧ modelsByAuthType this'
      = OMap.set authType modelMap (modelsByAuthType this).
Proof.
  unfold registerAuthTypeModels.
  destruct (register_models _ _ _ _) as [[modelMap index]|e]; simpl; [|done].
  intros [= <-]. by exists modelMap.
Qed.

Lemma registerAuthTypeModels_Throw authType models this e :
  registerAuthTypeModels authType models this = Throw e →
  e = Error (missing_id_message authType) ∧ Exists malformed models.
Proof.
  unfold registerAuthTypeModels.
  destruct (register_models _ _ _ _) as [[modelMap index]|e'] eqn:Hreg;
    simpl; [done|].
  intros [= ->]. by eapply register_models_Throw.
Qed.

Lemma register_entries_user_entries cfg this :
  register_entries cfg this = register_entries (user_entries cfg) this.
Proof.
  revert this. unfold user_entries.
  induction cfg as [|[authType models] rest IH]; intros this; [done|].
  rewrite filter_cons. simpl. case_decide as Hkey.
  - rewrite decide_False by (by intros []). apply IH.
  - rewrite decide_True by done. simpl. rewrite decide_False by done.
    destruct (registerAuthTypeModels authType models this); simpl; [|done].
    apply IH.
Qed.

(** Registering the entries of a configuration leaves alone the catalog of
    every provider-type that is the built-in one or is not among its keys. *)
Lemma register_entries_get_other cfg this this' authType :
  register_entries cfg this = Ok this' →
  authType = QWEN_OAUTH ∨ authType ∉ cfg.*1 →
  OMap.get authType (modelsByAuthType this')
  = OMap.get authType (modelsByAuthType this).
Proof.
  revert this.
  induction cfg as [|[key models] rest IH]; intros this; simpl.
  - by intros [= ->].
  - intros Hreg Hkey. case_decide as Hq.
    + apply IH; [done|]. destruct Hkey as [?|Hkey]; [by left|].
      right. by apply not_elem_of_cons in Hkey as [_ ?].
    + destruct (registerAuthTypeModels key models this) as [this1|e] eqn:H1;
        simpl in Hreg; [|done].
      apply registerAuthTypeModels_Ok in H1 as (modelMap & _ & Hmap).
      rewrite (IH this1 Hreg).
      * rewrite Hmap. apply omap_get_set_ne.
        destruct Hkey as [->|Hkey]; [done|].
        by apply not_elem_of_cons in Hkey as [? _].
      * destruct Hkey as [?|Hkey]; [by left|].
        right. by apply not_elem_of_cons in Hkey as [_ ?].
Qed.

(** The registry right after the built-in catalog has been registered. *)
Lemma builtin_registered :
  ∃ this index,
    registerAuthTypeModels QWEN_OAUTH QWEN_OAUTH_MODELS empty_registry = Ok this
    ∧ this
      = {| modelsByAuthType :=
             [ (QWEN_OAUTH,
                [ ("coder-model", resolved_of QWEN_CODER_MODEL QWEN_OAUTH);
                  ("vision-model", resolved_of QWEN_VISION_MODEL QWEN_OAUTH) ]) ];
           modelIdToAuthTypes := index |}
    ∧ (∀ id, default [] (index !! id)
             = if decide (id = "coder-model") then [QWEN_OAUTH]
               else if decide (id = "vision-model") then [QWEN_OAUTH]
               else []).
Proof.
  eexists _, (<["vision-model" := [QWEN_OAUTH]]> (<["coder-model" := [QWEN_OAUTH]]> ∅)).
  split; [|split].
  - reflexivity.
  - reflexivity.
  - intros id. rewrite !lookup_insert, lookup_empty.
    repeat case_decide; simplify_eq; done.
Qed.

Lemma ModelRegistry_new_Some cfg :
  ModelRegistry_new (Some cfg)
  = try! this := registerAuthTypeModels QWEN_OAUTH QWEN_OAUTH_MODELS
                   empty_registry in
    register_entries cfg this.
Proof. reflexivity. Qed.

Lemma ModelRegistry_new_builtin_catalog cfg reg :
  ModelRegistry_new (Some cfg) = Ok reg →
  OMap.get QWEN_OAUTH (modelsByAuthType reg)
  = Some [ ("coder-model", resolved_of QWEN_CODER_MODEL QWEN_OAUTH);
           ("vision-model", resolved_of QWEN_VISION_MODEL QWEN_OAUTH) ].
Proof.
  rewrite ModelRegistry_new_Some.
  destruct builtin_registered as (this & index & -> & -> & _). simpl.
  intros Hreg.
  by rewrite (register_entries_get_other _ _ _ QWEN_OAUTH Hreg
                (or_introl eq_refl)).
Qed.

(** C3. Whatever the caller supplies, the entries under the key of the
    built-in provider-type play no part in the construction (it ends as it
    does without them, with the same registry or the same error), and the
    catalog of the built-in provider-type in a constructed registry is
    exactly the resolved [coder-model] and [vision-model], in that order. *)
Theorem builtin_catalog_is_protected (cfg : ModelProvidersConfig) :
  ModelRegistry_new (Some cfg) = ModelRegistry_new (Some (user_entries cfg))
  ∧ resolveModelConfig QWEN_CODER_MODEL QWEN_OAUTH
    = Ok (resolved_of QWEN_CODER_MODEL QWEN_OAUTH)
  ∧ resolveModelConfig QWEN_VISION_MODEL QWEN_OAUTH
    = Ok (resolved_of QWEN_VISION_MODEL QWEN_OAUTH)
  ∧ ∀ reg,
      ModelRegistry_new (Some cfg) = Ok reg →
      OMap.get QWEN_OAUTH (modelsByAuthType reg)
      = Some [ ("coder-model", resolved_of QWEN_CODER_MODEL QWEN_OAUTH);
               ("vision-model", resolved_of QWEN_VISION_MODEL QWEN_OAUTH) ]
      ∧ Available.id <$> getModelsForAuthType reg QWEN_OAUTH
        = ["coder-model"; "vision-model"]
      ∧ ∀ id, hasModel reg QWEN_OAUTH id
              = bool_decide (id ∈ ["coder-model"; "vision-model"]).
Proof.
  split; [|split; [reflexivity|split; [reflexivity|]]].
  - rewrite !ModelRegistry_new_Some.
    destruct (registerAuthTypeModels _ _ _); simpl; [|done].
    apply register_entries_user_entries.
  - intros reg Hget%ModelRegistry_new_builtin_catalog.
    split; [done|]. split.
    + unfold getModelsForAuthType. by rewrite Hget.
    + intros id. unfold hasModel, OMap.has. rewrite Hget. simpl.
      destruct (decide (id = "coder-model")) as [->|Hcoder]; [done|].
      destruct (decide (id = "vision-model")) as [->|Hvision]; [done|].
      symmetry. apply bool_decide_eq_false_2.
      rewrite !elem_of_cons, elem_of_nil. by intros [?|[?|[]]].
Qed.

Lemma builtin_catalog_is_protected_witness :
  ModelRegistry_new
    (Some [ ("qwen-oauth", [model_config "custom-qwen" (Some "Custom Qwen") None]) ])
  = Ok (registry_of None)
  ∧ Available.id <$> getModelsForAuthType (registry_of None) QWEN_OAUTH
    = ["coder-model"; "vision-model"]
  ∧ hasModel (registry_of None) QWEN_OAUTH "custom-qwen" = false.
Proof.
  assert (ModelRegistry_new
            (Some [ ("qwen-oauth",
                     [model_config "custom-qwen" (Some "Custom Qwen") None]) ])
          = Ok (registry_of None)) as Hnew by reflexivity.
  split; [exact Hnew|].
  destruct (builtin_catalog_is_protected
              [ ("qwen-oauth",
                 [model_config "custom-qwen" (Some "Custom Qwen") None]) ])
    as (_ & _ & _ & Hcat).
  destruct (Hcat _ Hnew) as (_ & Hids & Hhas).
  split; [exact Hids|]. by rewrite Hhas.
Defined.

(** ** Malformed entries *)

Lemma user_entries_cons_qwen models (rest : ModelProvidersConfig) :
  user_entries ((QWEN_OAUTH, models) :: rest) = user_entries rest.
Proof.
  unfold user_entries. rewrite filter_cons. by rewrite decide_False by (by intros []).
Qed.

Lemma user_entries_cons_other key models (rest : ModelProvidersConfig) :
  key ≠ QWEN_OAUTH →
  user_entries ((key, models) :: rest) = (key, models) :: user_entries rest.
Proof.
  intros Hne. unfold user_entries. rewrite filter_cons. by rewrite decide_True.
Qed.

(** The first entry, in the order the constructor visits them, that is
    not under the built-in key and holds a malformed definition is where
    the registration stops. *)
Lemma register_entries_first_malformed cfg this :
  Exists (λ entry, entry.1 ≠ QWEN_OAUTH ∧ Exists malformed entry.2) cfg →
  ∃ before authType models after,
    cfg = before ++ (authType, models) :: after
    ∧ Forall (λ entry, Forall (λ config, ¬ malformed config) entry.2)
        (user_entries before)
    ∧ authType ≠ QWEN_OAUTH
    ∧ Exists malformed models
    ∧ register_entries cfg this
      = Throw (Error (missing_id_message authType)).
Proof.
  revert this.
  induction cfg as [|[key models] rest IH]; intros this Hbad;
    [by apply Exists_nil in Hbad|].
  simpl. destruct (decide (key = QWEN_OAUTH)) as [->|Hq].
  - apply Exists_cons in Hbad as [[Hne _]|Hbad]; [done|].
    destruct (IH this Hbad) as (before & a & ms & after & -> & Hok & Hrest).
    exists ((QWEN_OAUTH, models) :: before), a, ms, after.
    split; [done|]. by rewrite user_entries_cons_qwen.
  - destruct (registerAuthTypeModels key models this) as [this1|e] eqn:H1;
      simpl.
    + apply registerAuthTypeModels_Ok in H1 as (modelMap & Hok & _).
      apply register_models_Ok in Hok.
      apply Exists_cons in Hbad as [[_ Hhd]|Hbad].
      * exfalso. apply Exists_exists in Hhd as (c & Hc & Hmal).
        by eapply Forall_forall in Hok.
      * destruct (IH this1 Hbad)
          as (before & a & ms & after & -> & Hbefore & Hrest).
        exists ((key, models) :: before), a, ms, after.
        split; [done|]. rewrite (user_entries_cons_other _ _ _ Hq).
        split; [by constructor|done].
    + apply registerAuthTypeModels_Throw in H1 as [-> Hms].
      exists [], key, models, rest. repeat split; done.
Qed.

(** C8, as the code has it.  When a model definition with an empty or
    missing identifier stands under a key other than the built-in
    provider-type, the construction ends with the error that names the
    first such key in the order of the configuration: every entry before it
    that is not under the built-in key holds only definitions with an
    identifier.  No registry is produced, and the manager built on the same
    configuration ends with the same error. *)
Theorem malformed_entry_aborts_construction
    (cfg : ModelProvidersConfig) (authType : AuthType)
    (models : list ModelConfig.t) (config : ModelConfig.t) :
  (authType, models) ∈ cfg →
  authType ≠ QWEN_OAUTH →
  config ∈ models →
  malformed config →
  ∃ before authType' models' config' after,
    cfg = before ++ (authType', models') :: after
    ∧ Forall (λ entry, Forall (λ config, ¬ malformed config) entry.2)
        (user_entries before)
    ∧ (authType', models') ∈ cfg ∧ authType' ≠ QWEN_OAUTH
    ∧ config' ∈ models' ∧ malformed config'
    ∧ ModelRegistry_new (Some cfg)
      = Throw (Error (missing_id_message authType'))
    ∧ ∀ env now options,
        Options.modelProvidersConfig options = Some cfg →
        ModelSelectionManager_new env now options
        = Throw (Error (missing_id_message authType')).
Proof.
  intros Hin Hne Hc Hmal.
  destruct builtin_registered as (this & index & Hbuiltin & _ & _).
  destruct (register_entries_first_malformed cfg this)
    as (before & a & ms & after & Hcfg & Hbefore & Hq & Hms & Hthrow).
  { apply Exists_exists. exists (authType, models). split; [done|].
    split; [done|]. apply Exists_exists. by exists config. }
  apply Exists_exists in Hms as (c & Hcin & Hcmal).
  exists before, a, ms, c, after.
  split; [done|]. split; [done|]. split.
  { rewrite Hcfg. apply elem_of_app. right. by left. }
  repeat split; try done.
  - by rewrite ModelRegistry_new_Some, Hbuiltin.
  - intros env now options Hoptions. unfold ModelSelectionManager_new.
    by rewrite Hoptions, ModelRegistry_new_Some, Hbuiltin; simpl;
      rewrite Hthrow.
Qed.

Lemma malformed_entry_aborts_construction_witness :
  malformed (model_config "" (Some "No ID") None)
  ∧ ModelRegistry_new
      (Some [ ("openai", [model_config "gpt-4" None None]);
              ("gemini-api-key", [model_config "" (Some "No ID") None]);
              ("vertex-ai", [model_config "" (Some "No ID") None]) ])
    = Throw (Error
        "Model config in authType 'gemini-api-key' missing required field: id").
Proof.
  assert (malformed (model_config "" (Some "No ID") None)) as Hmal
    by reflexivity.
  split; [exact Hmal|].
  destruct (malformed_entry_aborts_construction
              [ ("openai", [model_config "gpt-4" None None]);
                ("gemini-api-key", [model_config "" (Some "No ID") None]);
                ("vertex-ai", [model_config "" (Some "No ID") None]) ]
              "vertex-ai" [model_config "" (Some "No ID") None]
              (model_config "" (Some "No ID") None))
    as (before & a & ms & c & after & _ & _ & _ & _ & _ & _ & Hthrow & _).
  - right. right. by left.
  - done.
  - by left.
  - exact Hmal.
  - rewrite Hthrow. by vm_compute.
Defined.

(** C8, as stated, fails: a malformed definition under the key of the
    built-in provider-type is discarded with the rest of that entry, and the
    registry is constructed. *)
Lemma malformed_entry_counterexample :
  ¬ (∀ (cfg : ModelProvidersConfig) (authType : AuthType)
       (models : list ModelConfig.t) (config : ModelConfig.t),
       (authType, models) ∈ cfg → config ∈ models → malformed config →
       ∃ e, ModelRegistry_new (Some cfg) = Throw e).
Proof.
  intros Hclaim.
  destruct (Hclaim [ ("qwen-oauth", [model_config "" (Some "No ID") None]) ]
              "qwen-oauth" [model_config "" (Some "No ID") None]
              (model_config "" (Some "No ID") None))
    as [e He].
  - by left.
  - by left.
  - reflexivity.
  - by vm_compute in He.
Qed.

(** ** The catalog of a provider-type *)

Lemma omap_set_Forall {V : Type} (P : string * V → Prop) k v (m : OMap.t V) :
  P (k, v) → Forall P m → Forall P (OMap.set k v m).
Proof.
  intros Hkv. induction 1 as [|[k' v'] m Hhd Htl IH]; simpl.
  - by repeat constructor.
  - case_decide; constructor; done.
Qed.

Lemma register_models_head_key authType models modelMap index modelMap' index' :
  modelMap ≠ [] →
  register_models authType models modelMap index = Ok (modelMap', index') →
  head (OMap.keys modelMap') = head (OMap.keys modelMap).
Proof.
  revert modelMap index.
  induction models as [|config rest IH]; intros modelMap index Hne; simpl.
  - by intros [= <- <-].
  - destruct (resolveModelConfig config authType) as [r|e]; simpl; [|done].
    intros Hrest. rewrite (IH _ _ (omap_set_nonempty _ _ _) Hrest).
    by apply omap_set_head_key.
Qed.

Lemma register_models_head_entry authType models k v modelMap index
    modelMap' index' :
  Forall (λ config, ModelConfig.id config ≠ Some k) models →
  register_models authType models ((k, v) :: modelMap) index
    = Ok (modelMap', index') →
  head modelMap' = Some (k, v).
Proof.
  intros Hfresh. revert modelMap index.
  induction Hfresh as [|config rest Hhd Htl IH]; intros modelMap index; simpl.
  - by intros [= <- <-].
  - destruct (resolveModelConfig config authType) as [r|e] eqn:Hres;
      simpl; [|done].
    apply resolveModelConfig_Ok in Hres as (id & Hid & _ & ->). simpl.
    rewrite decide_False by congruence. apply IH.
Qed.

Lemma register_models_ids authType models modelMap index modelMap' index' :
  Forall (λ entry, Resolved.id entry.2 = entry.1) modelMap →
  register_models authType models modelMap index = Ok (modelMap', index') →
  Forall (λ entry, Resolved.id entry.2 = entry.1) modelMap'.
Proof.
  revert modelMap index.
  induction models as [|config rest IH]; intros modelMap index Hinv; simpl.
  - by intros [= <- <-].
  - destruct (resolveModelConfig config authType) as [r|e]; simpl; [|done].
    apply IH. by apply omap_set_Forall.
Qed.

(** The first value of the map built from [config :: rest] stands under the
    identifier of [config]; it is the resolution of [config] unless a later
    definition has the same identifier. *)
Lemma register_models_first authType config rest index modelMap index' r :
  resolveModelConfig config authType = Ok r →
  register_models authType (config :: rest) OMap.empty index
    = Ok (modelMap, index') →
  ∃ d, head (OMap.values modelMap) = Some d
    ∧ Resolved.id d = Resolved.id r
    ∧ (Forall (λ c, ModelConfig.id c ≠ ModelConfig.id config) rest → d = r).
Proof.
  intros Hres. simpl. rewrite Hres. simpl. intros Hrest.
  assert ([(Resolved.id r, r)] ≠ []) as Hne by done.
  pose proof (register_models_head_key _ _ _ _ _ _ Hne Hrest) as Hkey.
  simpl in Hkey.
  assert (Forall (λ entry, Resolved.id entry.2 = entry.1) modelMap) as Hids.
  { eapply register_models_ids; [|exact Hrest]. by repeat constructor. }
  destruct modelMap as [|[k d] modelMap]; [done|].
  simpl in Hkey. injection Hkey as ->.
  apply Forall_cons in Hids as [Hd _]. simpl in Hd.
  exists d. split; [done|]. split; [done|].
  intros Hfresh.
  apply resolveModelConfig_Ok in Hres as (id & Hid & _ & Hr).
  rewrite Hid in Hfresh.
  assert (Resolved.id r = id) as Hrid by (by rewrite Hr). rewrite Hrid in *.
  pose proof (register_models_head_entry _ _ _ _ _ _ _ _ Hfresh Hrest) as Hhd.
  simpl in Hhd. by injection Hhd as ->.
Qed.

(** With pairwise distinct keys, as the properties of an object have, the
    catalog of a registered key is the map built from its own entry. *)
Lemma register_entries_get cfg this this' authType models :
  register_entries cfg this = Ok this' →
  NoDup cfg.*1 →
  (authType, models) ∈ cfg →
  authType ≠ QWEN_OAUTH →
  ∃ modelMap index index',
    register_models authType models OMap.empty index = Ok (modelMap, index')
    ∧ OMap.get authType (modelsByAuthType this') = Some modelMap.
Proof.
  revert this.
  induction cfg as [|[key ms] rest IH]; intros this Hreg Hnodup Hin Hne.
  - by apply elem_of_nil in Hin.
  - simpl in Hreg, Hnodup. apply NoDup_cons in Hnodup as [Hfresh Hnodup].
    apply elem_of_cons in Hin as [[= -> ->]|Hin].
    + rewrite decide_False in Hreg by done.
      destruct (registerAuthTypeModels key ms this) as [this1|e] eqn:H1;
        simpl in Hreg; [|done].
      apply registerAuthTypeModels_Ok in H1 as (modelMap & Hok & Hmap).
      exists modelMap, (modelIdToAuthTypes this), (modelIdToAuthTypes this1).
      split; [done|].
      rewrite (register_entries_get_other _ _ _ key Hreg (or_intror Hfresh)).
      rewrite Hmap. apply omap_get_set_eq.
    + case_decide.
      * by apply (IH this).
      * destruct (registerAuthTypeModels key ms this) as [this1|e];
          simpl in Hreg; [|done].
        by apply (IH this1).
Qed.

Lemma getDefaultModelForAuthType_other reg authType :
  authType ≠ QWEN_OAUTH →
  getDefaultModelForAuthType reg authType
  = OMap.get authType (modelsByAuthType reg)
      ≫= λ models, head (OMap.values models).
Proof.
  intros Hne. unfold getDefaultModelForAuthType, getFirstModelForAuthType.
  rewrite decide_False by done.
  destruct (OMap.get authType (modelsByAuthType reg)) as [models|]; [|done].
  simpl. case_decide as Hsize; [|done]. by destruct models.
Qed.

(** C6. The default-model query is asymmetric.  For the built-in
    provider-type it is the lookup of the fixed identifier
    [DEFAULT_QWEN_MODEL], whatever the order of the catalog; for any other
    provider-type it is the first value of its catalog, and nothing when the
    provider-type is unknown or has no models.  On a constructed registry
    that is the resolved [coder-model] for the built-in provider-type, and
    for a key of the configuration the definition under the identifier
    registered first (the resolution of the first definition, unless a later
    one of the same entry reuses that identifier). *)
Theorem default_model_asymmetry :
  (∀ reg,
     getDefaultModelForAuthType reg QWEN_OAUTH
     = getModel reg QWEN_OAUTH DEFAULT_QWEN_MODEL)
  ∧ (∀ reg authType,
       authType ≠ QWEN_OAUTH →
       getDefaultModelForAuthType reg authType
       = OMap.get authType (modelsByAuthType reg)
           ≫= λ models, head (OMap.values models))
  ∧ ∀ cfg reg,
      ModelRegistry_new cfg = Ok reg →
      getDefaultModelForAuthType reg QWEN_OAUTH
        = Some (resolved_of QWEN_CODER_MODEL QWEN_OAUTH)
      ∧ (∀ authType,
           authType ≠ QWEN_OAUTH → authType ∉ (default [] cfg).*1 →
           getDefaultModelForAuthType reg authType = None)
      ∧ (∀ authType,
           authType ≠ QWEN_OAUTH → NoDup (default [] cfg).*1 →
           (authType, []) ∈ default [] cfg →
           getDefaultModelForAuthType reg authType = None)
      ∧ (∀ authType config rest,
           authType ≠ QWEN_OAUTH → NoDup (default [] cfg).*1 →
           (authType, config :: rest) ∈ default [] cfg →
           ∃ d r,
             resolveModelConfig config authType = Ok r
             ∧ getDefaultModelForAuthType reg authType = Some d
             ∧ Resolved.id d = Resolved.id r
             ∧ (Forall (λ c, ModelConfig.id c ≠ ModelConfig.id config) rest →
                d = r)).
Proof.
  split; [|split].
  - intros reg. unfold getDefaultModelForAuthType. by rewrite decide_True.
  - apply getDefaultModelForAuthType_other.
  - intros cfg reg Hnew.
    assert (ModelRegistry_new (Some (default [] cfg)) = Ok reg) as Hnew'
      by (by destruct cfg).
    clear Hnew. revert Hnew'. generalize (default [] cfg). clear cfg.
    intros cfg Hnew.
    pose proof (ModelRegistry_new_builtin_catalog _ _ Hnew) as Hqwen.
    rewrite ModelRegistry_new_Some in Hnew.
    destruct builtin_registered as (this & index & Hbuiltin & Hthis & _).
    rewrite Hbuiltin in Hnew. simpl in Hnew.
    split; [|split; [|split]].
    + unfold getDefaultModelForAuthType, getModel.
      rewrite decide_True by done. by rewrite Hqwen.
    + intros authType Hne Hout.
      rewrite getDefaultModelForAuthType_other by done.
      rewrite (register_entries_get_other _ _ _ authType Hnew (or_intror Hout)).
      rewrite Hthis. simpl. by rewrite decide_False.
    + intros authType Hne Hnodup Hin.
      rewrite getDefaultModelForAuthType_other by done.
      destruct (register_entries_get _ _ _ _ _ Hnew Hnodup Hin Hne)
        as (modelMap & i & i' & Hok & ->).
      simpl in Hok. by injection Hok as <- <-.
    + intros authType config rest Hne Hnodup Hin.
      destruct (register_entries_get _ _ _ _ _ Hnew Hnodup Hin Hne)
        as (modelMap & i & i' & Hok & Hget).
      destruct (resolveModelConfig config authType) as [r|e] eqn:Hres;
        [|by simpl in Hok; rewrite Hres in Hok].
      destruct (register_models_first _ _ _ _ _ _ _ Hres Hok)
        as (d & Hhead & Hid & Hsame).
      exists d, r. split; [done|].
      rewrite getDefaultModelForAuthType_other by done.
      rewrite Hget. simpl. done.
Qed.

Lemma default_model_asymmetry_witness :
  ModelRegistry_new (Some defaultConfig) = Ok (registry_of (Some defaultConfig))
  ∧ Resolved.id
      <$> getDefaultModelForAuthType (registry_of (Some defaultConfig)) "openai"
    = Some "gpt-4-turbo"
  ∧ Resolved.id
      <$> getDefaultModelForAuthType (registry_of (Some defaultConfig))
            QWEN_OAUTH
    = Some "coder-model".
Proof.
  assert (ModelRegistry_new (Some defaultConfig)
          = Ok (registry_of (Some defaultConfig))) as Hnew by reflexivity.
  split; [exact Hnew|].
  destruct default_model_asymmetry as (_ & _ & Hbuilt).
  destruct (Hbuilt (Some defaultConfig) _ Hnew) as (Hqwen & _ & _ & Hfirst).
  split.
  - destruct (Hfirst "openai"
                (model_config "gpt-4-turbo" (Some "GPT-4 Turbo")
                   (Some "https://api.openai.com/v1"))
                [ model_config "gpt-3.5-turbo" (Some "GPT-3.5 Turbo")
                    (Some "https://api.openai.com/v1");
                  model_config "deepseek-coder" (Some "DeepSeek Coder")
                    (Some "https://api.deepseek.com/v1") ])
      as (d & r & Hres & Hdef & Hid & _).
    + done.
    + simpl. apply NoDup_singleton.
    + by left.
    + rewrite Hdef. simpl. rewrite Hid. by injection Hres as <-.
  - by rewrite Hqwen.
Defined.

(** ** The reverse index *)

Lemma register_models_index authType models modelMap index modelMap' index' :
  register_models authType models modelMap index = Ok (modelMap', index') →
  ∀ modelId,
    default [] (index' !! modelId)
    = default [] (index !! modelId) ++ registrations_of modelId authType models.
Proof.
  revert modelMap index.
  induction models as [|config rest IH]; intros modelMap index; simpl.
  - intros [= <- <-] modelId. by rewrite app_nil_r.
  - destruct (resolveModelConfig config authType) as [r|e] eqn:Hres;
      simpl; [|done].
    apply resolveModelConfig_Ok in Hres as (id & Hid & _ & ->). simpl.
    intros Hrest modelId. rewrite (IH _ _ Hrest modelId).
    unfold registrations_of. rewrite filter_cons, Hid.
    destruct (decide (id = modelId)) as [->|Hne].
    + rewrite lookup_insert_eq, decide_True by done. simpl.
      by rewrite <- app_assoc.
    + rewrite lookup_insert_ne by done.
      rewrite decide_False by congruence. done.
Qed.

Lemma register_entries_index cfg this this' :
  register_entries cfg this = Ok this' →
  ∀ modelId,
    default [] (modelIdToAuthTypes this' !! modelId)
    = default [] (modelIdToAuthTypes this !! modelId)
      ++ (user_entries cfg
            ≫= λ entry, registrations_of modelId entry.1 entry.2).
Proof.
  revert this. unfold user_entries.
  induction cfg as [|[key models] rest IH]; intros this; simpl.
  - intros [= <-] modelId. by rewrite app_nil_r.
  - rewrite filter_cons. simpl. case_decide as Hq.
    + rewrite decide_False by (by intros []). apply IH.
    + rewrite decide_True by done.
      destruct (registerAuthTypeModels key models this) as [this1|e] eqn:H1;
        simpl; [|done].
      apply registerAuthTypeModels_Ok in H1 as (modelMap & Hok & _).
      intros Hrest modelId. rewrite (IH _ Hrest modelId).
      rewrite (register_models_index _ _ _ _ _ _ Hok modelId).
      by rewrite <- app_assoc.
Qed.

Lemma ModelRegistry_new_index cfg reg modelId :
  ModelRegistry_new (Some cfg) = Ok reg →
  findAuthTypesForModel reg modelId None = registrations modelId cfg.
Proof.
  rewrite ModelRegistry_new_Some.
  destruct (registerAuthTypeModels QWEN_OAUTH QWEN_OAUTH_MODELS empty_registry)
    as [this|e] eqn:Hbuiltin; simpl; [|done].
  intros Hreg. unfold findAuthTypesForModel, registrations.
  rewrite (register_entries_index _ _ _ Hreg modelId). f_equal.
  apply registerAuthTypeModels_Ok in Hbuiltin as (modelMap & Hok & _).
  by rewrite (register_models_index _ _ _ _ _ _ Hok modelId).
Qed.

Lemma elem_of_registrations_of modelId authType models a :
  a ∈ registrations_of modelId authType models
  ↔ a = authType
    ∧ ∃ config, config ∈ models ∧ ModelConfig.id config = Some modelId.
Proof.
  unfold registrations_of. rewrite list_elem_of_fmap. split.
  - intros (config & -> & [Hid Hin]%list_elem_of_filter). eauto.
  - intros (-> & config & Hin & Hid). exists config.
    split; [done|]. by apply list_elem_of_filter.
Qed.

Lemma elem_of_registrations modelId cfg a :
  a ∈ registrations modelId cfg
  ↔ (a = QWEN_OAUTH ∧ modelId ∈ ["coder-model"; "vision-model"])
    ∨ (a ≠ QWEN_OAUTH
       ∧ ∃ models config,
           (a, models) ∈ cfg ∧ config ∈ models
           ∧ ModelConfig.id config = Some modelId).
Proof.
  unfold registrations, user_entries.
  rewrite elem_of_app, elem_of_registrations_of. f_equiv.
  - unfold QWEN_OAUTH_MODELS. split.
    + intros (-> & config & Hin & Hid). split; [done|].
      rewrite !elem_of_cons, elem_of_nil in Hin.
      destruct Hin as [->|[->|[]]]; simpl in Hid; injection Hid as <-.
      * by left.
      * right. by left.
    + intros (-> & Hin). split; [done|].
      rewrite !elem_of_cons, elem_of_nil in Hin.
      destruct Hin as [->|[->|[]]].
      * exists QWEN_CODER_MODEL. split; [by left|done].
      * exists QWEN_VISION_MODEL. split; [right; by left|done].
  - rewrite list_elem_of_bind. split.
    + intros (entry & Ha & [Hkey Hentry]%list_elem_of_filter).
      apply elem_of_registrations_of in Ha as (-> & config & Hin & Hid).
      split; [done|]. exists entry.2, config. by destruct entry.
    + intros (Hne & models & config & Hentry & Hin & Hid).
      exists (a, models). split.
      * apply elem_of_registrations_of. eauto.
      * by apply list_elem_of_filter.
Qed.

(** The forward catalog agrees with the registrations. *)
Lemma register_models_has authType models modelMap index modelMap' index'
    modelId :
  register_models authType models modelMap index = Ok (modelMap', index') →
  OMap.has modelId modelMap' = true
  ↔ OMap.has modelId modelMap = true
    ∨ ∃ config, config ∈ models ∧ ModelConfig.id config = Some modelId.
Proof.
  revert modelMap index.
  induction models as [|config rest IH]; intros modelMap index; simpl.
  - intros [= <- <-]. split; [by left|].
    intros [?|(c & []%elem_of_nil & _)]. done.
  - destruct (resolveModelConfig config authType) as [r|e] eqn:Hres;
      simpl; [|done].
    apply resolveModelConfig_Ok in Hres as (id & Hid & _ & ->). simpl.
    intros Hrest. rewrite (IH _ _ Hrest), omap_has_set. split.
    + intros [[->|Hhas]|(c & Hc & Hcid)].
      * right. exists config. split; [by left|done].
      * by left.
      * right. exists c. split; [by right|done].
    + intros [Hhas|(c & [->|Hc]%elem_of_cons & Hcid)].
      * left. by right.
      * left. left. congruence.
      * right. by exists c.
Qed.

Lemma ModelRegistry_new_hasModel cfg reg authType modelId :
  ModelRegistry_new (Some cfg) = Ok reg →
  NoDup cfg.*1 →
  hasModel reg authType modelId = true ↔ authType ∈ registrations modelId cfg.
Proof.
  intros Hnew Hnodup. rewrite elem_of_registrations.
  pose proof (ModelRegistry_new_builtin_catalog _ _ Hnew) as Hqwen.
  rewrite ModelRegistry_new_Some in Hnew.
  destruct builtin_registered as (this & index & Hbuiltin & Hthis & _).
  rewrite Hbuiltin in Hnew. simpl in Hnew.
  destruct (decide (authType = QWEN_OAUTH)) as [->|Hne].
  - unfold hasModel, OMap.has. rewrite Hqwen. simpl.
    rewrite !elem_of_cons, elem_of_nil.
    destruct (decide (modelId = "coder-model")) as [->|Hcoder].
    { split; [|done]. intros _. left. split; [done|]. by left. }
    destruct (decide (modelId = "vision-model")) as [->|Hvision].
    { split; [|done]. intros _. left. split; [done|]. right. by left. }
    split; [done|]. by intros [[_ [?|[?|[]]]]|[? _]].
  - split.
    + intros Hhas. right. split; [done|].
      destruct (decide (authType ∈ cfg.*1)) as [Hkey|Hkey].
      * apply list_elem_of_fmap in Hkey as ([a models] & -> & Hin).
        destruct (register_entries_get _ _ _ _ _ Hnew Hnodup Hin Hne)
          as (modelMap & i & i' & Hok & Hget).
        unfold hasModel in Hhas. simpl in Hhas, Hget. rewrite Hget in Hhas.
        apply (register_models_has _ _ _ _ _ _ modelId Hok) in Hhas
          as [Hempty|(c & Hc & Hcid)]; [done|].
        by exists models, c.
      * unfold hasModel in Hhas.
        rewrite (register_entries_get_other _ _ _ authType Hnew
                   (or_intror Hkey)) in Hhas.
        rewrite Hthis in Hhas. simpl in Hhas.
        by rewrite decide_False in Hhas.
    + intros [[? _]|(_ & models & c & Hin & Hc & Hcid)]; [done|].
      destruct (register_entries_get _ _ _ _ _ Hnew Hnodup Hin Hne)
        as (modelMap & i & i' & Hok & Hget).
      unfold hasModel. rewrite Hget.
      apply (register_models_has _ _ _ _ _ _ modelId Hok). right. by exists c.
Qed.

Lemma filter_ne_absent (p : AuthType) (l : list AuthType) :
  p ∉ l → filter (λ a, a ≠ p) l = l.
Proof.
  induction l as [|a l IH]; [done|].
  intros [Hne Hl]%not_elem_of_cons. rewrite filter_cons.
  rewrite decide_True by done. by rewrite IH.
Qed.

Lemma filter_ne_middle (p : AuthType) (l1 l2 : list AuthType) :
  p ∉ l1 → p ∉ l2 → filter (λ a, a ≠ p) (l1 ++ p :: l2) = l1 ++ l2.
Proof.
  intros H1 H2. rewrite filter_app, filter_cons.
  rewrite decide_False by (by intros []).
  by rewrite !filter_ne_absent.
Qed.

(** C9. On a constructed registry, the reverse lookup of an identifier
    without a preference lists the provider-types that registered it: the
    built-in one for its two identifiers, and every other key of the
    configuration with a definition of that identifier; so it is empty for
    an identifier nobody registered, and, the keys of a configuration being
    distinct, it lists the provider-types whose catalog has the
    identifier.  With a preferred provider-type that is
    in that list, the result is the preferred one followed by the others in
    their order; with a preferred provider-type that is not in the list, or
    without one (the empty string counts as none), the result is that
    list. *)
Theorem findAuthTypesForModel_reverse_lookup
    (cfg : option ModelProvidersConfig) (reg : ModelRegistry)
    (modelId : string) :
  ModelRegistry_new cfg = Ok reg →
  let registered (a : AuthType) :=
    (a = QWEN_OAUTH ∧ modelId ∈ ["coder-model"; "vision-model"])
    ∨ (a ≠ QWEN_OAUTH
       ∧ ∃ models config,
           (a, models) ∈ default [] cfg ∧ config ∈ models
           ∧ ModelConfig.id config = Some modelId) in
  let all := findAuthTypesForModel reg modelId None in
  (∀ a, a ∈ all ↔ registered a)
  ∧ ((∀ a, ¬ registered a) → all = [])
  ∧ (NoDup (default [] cfg).*1 →
     ∀ a, a ∈ all ↔ hasModel reg a modelId = true)
  ∧ (∀ preferred,
       preferred ≠ "" → preferred ∈ all →
       findAuthTypesForModel reg modelId (Some preferred)
       = preferred :: filter (λ a, a ≠ preferred) all)
  ∧ (∀ preferred l1 l2,
       preferred ≠ "" → all = l1 ++ preferred :: l2 →
       preferred ∉ l1 → preferred ∉ l2 →
       findAuthTypesForModel reg modelId (Some preferred)
       = preferred :: l1 ++ l2)
  ∧ (∀ preferred,
       preferred ∉ all →
       findAuthTypesForModel reg modelId (Some preferred) = all)
  ∧ findAuthTypesForModel reg modelId (Some "") = all.
Proof.
  intros Hnew registered all.
  assert (ModelRegistry_new (Some (default [] cfg)) = Ok reg) as Hnew'
    by (by destruct cfg).
  assert (∀ a, a ∈ all ↔ registered a) as Hall.
  { intros a. subst all. rewrite (ModelRegistry_new_index _ _ _ Hnew').
    apply elem_of_registrations. }
  assert (∀ preferred,
            preferred ≠ "" → preferred ∈ all →
            findAuthTypesForModel reg modelId (Some preferred)
            = preferred :: filter (λ a, a ≠ preferred) all) as Hfront.
  { intros preferred Hne Hin. unfold findAuthTypesForModel.
    rewrite decide_False by done. by rewrite decide_True. }
  split; [exact Hall|]. split; [|split; [|split; [exact Hfront|]]].
  - intros Hnone. destruct all as [|a l] eqn:Heq; [done|].
    exfalso. apply (Hnone a), Hall. by left.
  - intros Hnodup a. subst all.
    rewrite (ModelRegistry_new_index _ _ _ Hnew'). symmetry.
    by apply ModelRegistry_new_hasModel.
  - repeat split.
    + intros preferred l1 l2 Hne Heq H1 H2. rewrite Hfront; [|done|].
      * by rewrite Heq, filter_ne_middle.
      * rewrite Heq. apply elem_of_app. right. by left.
    + intros preferred Hout. unfold findAuthTypesForModel.
      case_decide; [done|]. by rewrite decide_False.
Qed.

Lemma findAuthTypesForModel_reverse_lookup_witness :
  ModelRegistry_new (Some sharedConfig) = Ok (registry_of (Some sharedConfig))
  ∧ findAuthTypesForModel (registry_of (Some sharedConfig)) "shared-model" None
    = ["openai"; "gemini-api-key"]
  ∧ findAuthTypesForModel (registry_of (Some sharedConfig)) "shared-model"
      (Some "gemini-api-key")
    = ["gemini-api-key"; "openai"].
Proof.
  assert (ModelRegistry_new (Some sharedConfig)
          = Ok (registry_of (Some sharedConfig))) as Hnew by reflexivity.
  assert (findAuthTypesForModel (registry_of (Some sharedConfig))
            "shared-model" None = ["openai"; "gemini-api-key"]) as Hall
    by (by vm_compute).
  split; [exact Hnew|]. split; [exact Hall|].
  destruct (findAuthTypesForModel_reverse_lookup (Some sharedConfig) _
              "shared-model" Hnew) as (_ & _ & _ & _ & Hmove & _).
  apply (Hmove "gemini-api-key" ["openai"] []).
  - done.
  - exact Hall.
  - rewrite list_elem_of_singleton. done.
  - apply not_elem_of_nil.
Defined.

(** ** Initialization of the manager *)

(** C4, as the code has it.  Whenever the registry can be constructed the
    manager is constructed, on the effective provider-type and stamped with
    the time of construction, and its selection follows a strict
    precedence: the persisted identifier when it is not empty and the
    registry has it (source settings); otherwise the identifier from the
    environment when it is not empty and the registry has it (source
    environment); otherwise the registry's default for the provider-type
    when there is one (source default); otherwise the current identifier is
    left as supplied, which is the empty identifier when none was supplied,
    and the source stays default. *)
Theorem initialization_precedence
    (env : Env) (now : Z) (options : ModelSelectionManagerOptions)
    (reg : ModelRegistry) :
  ModelRegistry_new (Options.modelProvidersConfig options) = Ok reg →
  let authType := or_else (Options.initialAuthType options) QWEN_OAUTH in
  let initial := or_else (Options.initialModelId options) "" in
  let envModel :=
    if decide (authType = USE_OPENAI) then env "OPENAI_MODEL" else None in
  let persisted_ok := bool_decide (initial ≠ "") && hasModel reg authType initial in
  let env_ok :=
    match envModel with
    | Some e => bool_decide (e ≠ "") && hasModel reg authType e
    | None => false
    end in
  ∃ this,
    ModelSelectionManager_new env now options = Ok this
    ∧ modelRegistry this = reg
    ∧ currentAuthType this = authType
    ∧ selectionTimestamp this = now
    ∧ onModelChange this = Options.onModelChange options
    ∧ (persisted_ok = true →
       currentModelId this = initial ∧ selectionSource this = SETTINGS)
    ∧ (persisted_ok = false → env_ok = true →
       envModel = Some (currentModelId this)
       ∧ selectionSource this = ENVIRONMENT)
    ∧ (persisted_ok = false → env_ok = false →
       ∀ d, getDefaultModelForAuthType reg authType = Some d →
            currentModelId this = Resolved.id d
            ∧ selectionSource this = DEFAULT)
    ∧ (persisted_ok = false → env_ok = false →
       getDefaultModelForAuthType reg authType = None →
       currentModelId this = initial ∧ selectionSource this = DEFAULT).
Proof.
  intros Hreg. cbv zeta.
  unfold ModelSelectionManager_new. rewrite Hreg. simpl.
  unfold initializeDefaultSelection, getModelFromEnvironment, falsy. simpl.
  generalize (or_else (Options.initialAuthType options) QWEN_OAUTH).
  generalize (or_else (Options.initialModelId options) "").
  intros initial authType. rewrite !bool_decide_not.
  destruct (negb (bool_decide (initial = "")) && hasModel reg authType initial).
  { eexists. split; [reflexivity|]. repeat split; done. }
  destruct (decide (authType = USE_OPENAI)) as [Hopenai|Hother];
    [destruct (env "OPENAI_MODEL") as [e|]|].
  - rewrite !bool_decide_not.
    destruct (negb (bool_decide (e = "")) && hasModel reg authType e).
    + eexists. split; [reflexivity|]. repeat split; done.
    + destruct (getDefaultModelForAuthType reg authType) as [d|];
        (eexists; split; [reflexivity|]); repeat split; try done;
        by simplify_eq.
  - destruct (getDefaultModelForAuthType reg authType) as [d|];
      (eexists; split; [reflexivity|]); repeat split; try done;
      by simplify_eq.
  - destruct (getDefaultModelForAuthType reg authType) as [d|];
      (eexists; split; [reflexivity|]); repeat split; try done;
      by simplify_eq.
Qed.

Lemma initialization_precedence_witness :
  ModelRegistry_new (Some defaultConfig) = Ok (registry_of (Some defaultConfig))
  ∧ ∃ this,
      ModelSelectionManager_new (openai_model_env "gpt-3.5-turbo") 1000
        (openai_options (Some "non-existent") defaultConfig) = Ok this
      ∧ currentModelId this = "gpt-3.5-turbo"
      ∧ selectionSource this = ENVIRONMENT.
Proof.
  assert (ModelRegistry_new (Some defaultConfig)
          = Ok (registry_of (Some defaultConfig))) as Hnew by reflexivity.
  split; [exact Hnew|].
  pose proof (initialization_precedence (openai_model_env "gpt-3.5-turbo") 1000
                (openai_options (Some "non-existent") defaultConfig) _ Hnew)
    as Hinit.
  cbv zeta in Hinit.
  destruct Hinit as (this & Hthis & _ & _ & _ & _ & _ & Henv & _).
  exists this. split; [exact Hthis|].
  destruct Henv as [Hid Hsrc]; [by vm_compute..|].
  split; [|exact Hsrc].
  change (Some "gpt-3.5-turbo" = Some (currentModelId this)) in Hid.
  by injection Hid as <-.
Defined.

(** C4, as stated, fails in its last case: a persisted identifier that the
    registry does not have stays the current identifier when neither the
    environment nor the registry offers another. *)
Lemma initialization_unselected_counterexample :
  ¬ (∀ (env : Env) (now : Z) (options : ModelSelectionManagerOptions)
       (this : ModelSelectionManager),
       ModelSelectionManager_new env now options = Ok this →
       (∀ id, Options.initialModelId options = Some id →
              hasModel (modelRegistry this) (currentAuthType this) id = false) →
       (∀ id, getModelFromEnvironment env this = Some id →
              hasModel (modelRegistry this) (currentAuthType this) id = false) →
       getDefaultModelForAuthType (modelRegistry this) (currentAuthType this)
         = None →
       currentModelId this = "").
Proof.
  intros Hclaim.
  specialize (Hclaim no_env 0%Z
                (openai_options (Some "non-existent") [("openai", [])])
                (manager_of no_env 0%Z
                   (openai_options (Some "non-existent") [("openai", [])]))
                eq_refl).
  assert (currentModelId
            (manager_of no_env 0%Z
               (openai_options (Some "non-existent") [("openai", [])]))
          = "non-existent") as Hstale by reflexivity.
  rewrite Hclaim in Hstale; [done| | |].
  - intros id [= <-]. by vm_compute.
  - intros id Hid. by vm_compute in Hid.
  - by vm_compute.
Qed.

(** * Further properties of the registry *)

Section OMapOrder.
Context {V : Type}.
Implicit Types (m : OMap.t V) (k : string) (v : V).

Lemma omap_get_elem_of k v m : OMap.get k m = Some v → (k, v) ∈ m.
Proof.
  induction m as [|[k' v'] m IH]; simpl; [done|].
  case_decide as Hk.
  - intros [= ->]. subst. by left.
  - intros Hget. right. by apply IH.
Qed.

Lemma omap_has_keys k m : OMap.has k m = true ↔ k ∈ OMap.keys m.
Proof.
  unfold OMap.has, OMap.keys.
  induction m as [|[k' v'] m IH]; simpl.
  - split; [done|]. by intros []%elem_of_nil.
  - rewrite elem_of_cons. case_decide as Hk.
    + split; [by left|done].
    + rewrite IH. split; [by right|]. by intros [?|?].
Qed.

Lemma omap_keys_set k v m :
  OMap.keys (OMap.set k v m)
  = if decide (k ∈ OMap.keys m) then OMap.keys m else OMap.keys m ++ [k].
Proof.
  unfold OMap.keys. induction m as [|[k' v'] m IH]; csimpl.
  - done.
  - destruct (decide (k = k')) as [->|Hne]; csimpl.
    + destruct (decide (k' ∈ k' :: m.*1)) as [Hin|Hin]; [done|].
      exfalso. apply Hin. by left.
    + rewrite IH. destruct (decide (k ∈ m.*1)) as [Hin|Hout].
      * destruct (decide (k ∈ k' :: m.*1)) as [Hin'|Hin']; [done|].
        exfalso. apply Hin'. by right.
      * destruct (decide (k ∈ k' :: m.*1)) as [Hin'|Hin']; [|done].
        by apply elem_of_cons in Hin' as [?|?].
Qed.

Lemma omap_set_NoDup k v m :
  NoDup (OMap.keys m) → NoDup (OMap.keys (OMap.set k v m)).
Proof.
  intros Hnodup. rewrite omap_keys_set. case_decide as Hin; [done|].
  apply NoDup_app. split; [done|]. split; [|apply NoDup_singleton].
  intros x Hx ->%list_elem_of_singleton. done.
Qed.

Lemma omap_get_NoDup k v m :
  NoDup (OMap.keys m) → (k, v) ∈ m → OMap.get k m = Some v.
Proof.
  unfold OMap.keys. induction m as [|[k' v'] m IH]; simpl.
  - by intros _ []%elem_of_nil.
  - intros [Hfresh Hnodup]%NoDup_cons [[= -> ->]|Hin]%elem_of_cons.
    + by rewrite decide_True.
    + rewrite decide_False; [by apply IH|].
      intros ->. apply Hfresh. apply list_elem_of_fmap. by exists (k', v).
Qed.
End OMapOrder.

(** A property of every resolved definition holds of every entry of a
    constructed registry. *)
Lemma register_models_Forall (P : string * ResolvedModelConfig → Prop)
    authType models modelMap index modelMap' index' :
  (∀ config r,
     resolveModelConfig config authType = Ok r → P (Resolved.id r, r)) →
  Forall P modelMap →
  register_models authType models modelMap index = Ok (modelMap', index') →
  Forall P modelMap'.
Proof.
  intros HP. revert modelMap index.
  induction models as [|config rest IH]; intros modelMap index Hinv; simpl.
  - by intros [= <- <-].
  - destruct (resolveModelConfig config authType) as [r|e] eqn:Hres;
      simpl; [|done].
    apply IH. apply omap_set_Forall; [|done]. by eapply HP.
Qed.

Lemma register_entries_Forall
    (P : AuthType → string * ResolvedModelConfig → Prop) cfg this this' :
  (∀ authType config r,
     resolveModelConfig config authType = Ok r →
     P authType (Resolved.id r, r)) →
  Forall (λ entry, Forall (P entry.1) entry.2) (modelsByAuthType this) →
  register_entries cfg this = Ok this' →
  Forall (λ entry, Forall (P entry.1) entry.2) (modelsByAuthType this').
Proof.
  intros HP. revert this.
  induction cfg as [|[key models] rest IH]; intros this Hinv; simpl.
  - by intros [= <-].
  - case_decide as Hq; [by apply IH|].
    destruct (registerAuthTypeModels key models this) as [this1|e] eqn:H1;
      simpl; [|done].
    apply registerAuthTypeModels_Ok in H1 as (modelMap & Hok & Hmap).
    apply IH. rewrite Hmap.
    apply (omap_set_Forall (λ entry, Forall (P entry.1) entry.2)); [|done].
    simpl. eapply register_models_Forall; [apply HP| |exact Hok].
    constructor.
Qed.

Lemma ModelRegistry_new_Forall
    (P : AuthType → string * ResolvedModelConfig → Prop) cfg reg :
  (∀ authType config r,
     resolveModelConfig config authType = Ok r →
     P authType (Resolved.id r, r)) →
  ModelRegistry_new cfg = Ok reg →
  Forall (λ entry, Forall (P entry.1) entry.2) (modelsByAuthType reg).
Proof.
  intros HP Hnew.
  assert (ModelRegistry_new (Some (default [] cfg)) = Ok reg) as Hnew'
    by (by destruct cfg).
  rewrite ModelRegistry_new_Some in Hnew'.
  destruct (registerAuthTypeModels QWEN_OAUTH QWEN_OAUTH_MODELS empty_registry)
    as [this|e] eqn:Hbuiltin; simpl in Hnew'; [|done].
  eapply register_entries_Forall; [exact HP| |exact Hnew'].
  apply registerAuthTypeModels_Ok in Hbuiltin as (modelMap & Hok & ->).
  simpl. constructor; [|constructor]. simpl.
  eapply register_models_Forall; [apply HP| |exact Hok]. constructor.
Qed.

Lemma getModel_entry reg authType modelId r :
  getModel reg authType modelId = Some r →
  ∃ models, (authType, models) ∈ modelsByAuthType reg ∧ (modelId, r) ∈ models.
Proof.
  unfold getModel.
  destruct (OMap.get authType (modelsByAuthType reg)) as [models|] eqn:Hget;
    [|done].
  intros Hr. exists models. split; by apply omap_get_elem_of.
Qed.

Lemma resolveModelConfig_well_resolved authType config r :
  resolveModelConfig config authType = Ok r →
  well_resolved authType (Resolved.id r) r.
Proof.
  intros (id & Hid & Hne & ->)%resolveModelConfig_Ok. unfold well_resolved.
  simpl. repeat split; try done.
  - unfold or_else. destruct (ModelConfig.name config) as [n|]; [|done].
    by case_decide.
  - intros key Hkey. unfold mergeGenerationConfig.
    destruct (ModelConfig.generationConfig config) as [c|]; [|done].
    rewrite lookup_union. destruct (c !! key); [by rewrite union_Some_l|].
    by rewrite (left_id_L None _).
  - intros [u Hu]. rewrite defaultBaseUrl_at, Hu.
    assert (u ≠ "") as Hu'.
    { rewrite DEFAULT_BASE_URLS_lookup in Hu.
      repeat case_decide; by simplify_eq. }
    unfold url_or_else.
    destruct (ModelConfig.baseUrl config) as [b|];
      [destruct (decide (b = ""))|]; intros [= ?]; done.
Qed.

Lemma ModelRegistry_new_well_resolved cfg reg authType modelId r :
  ModelRegistry_new cfg = Ok reg →
  getModel reg authType modelId = Some r →
  well_resolved authType modelId r.
Proof.
  intros Hnew (models & Hentry & Hr)%getModel_entry.
  pose proof (ModelRegistry_new_Forall
                (λ a entry, well_resolved a entry.1 entry.2) cfg reg
                resolveModelConfig_well_resolved Hnew) as Hall.
  rewrite Forall_forall in Hall. specialize (Hall _ Hentry). simpl in Hall.
  rewrite Forall_forall in Hall. exact (Hall _ Hr).
Qed.

(** X1. Every definition a constructed registry hands out is fully
    resolved: it carries the identifier and the provider-type it was looked
    up under, the identifier and the name are not empty, every global
    default generation parameter is present, and the base-URL is not empty
    when the provider-type has a default one. *)
Theorem registry_hands_out_resolved_definitions
    (cfg : option ModelProvidersConfig) (reg : ModelRegistry)
    (authType : AuthType) (modelId : string) (r : ResolvedModelConfig) :
  ModelRegistry_new cfg = Ok reg →
  getModel reg authType modelId = Some r →
  Resolved.id r = modelId
  ∧ Resolved.authType r = authType
  ∧ modelId ≠ ""
  ∧ Resolved.name r ≠ ""
  ∧ (∀ key, is_Some (DEFAULT_GENERATION_CONFIG !! key) →
            is_Some (Resolved.generationConfig r !! key))
  ∧ (is_Some (DEFAULT_BASE_URLS !! authType) → Resolved.baseUrl r ≠ "").
Proof. apply ModelRegistry_new_well_resolved. Qed.

Lemma registry_hands_out_resolved_definitions_witness :
  ModelRegistry_new (Some defaultConfig) = Ok (registry_of (Some defaultConfig))
  ∧ ∃ r,
      getModel (registry_of (Some defaultConfig)) "openai" "deepseek-coder"
        = Some r
      ∧ Resolved.authType r = "openai"
      ∧ Resolved.name r ≠ "".
Proof.
  assert (ModelRegistry_new (Some defaultConfig)
          = Ok (registry_of (Some defaultConfig))) as Hnew by reflexivity.
  split; [exact Hnew|].
  destruct (getModel (registry_of (Some defaultConfig)) "openai"
              "deepseek-coder") as [r|] eqn:Hget; [|by vm_compute in Hget].
  exists r. split; [done|].
  destruct (registry_hands_out_resolved_definitions _ _ _ _ _ Hnew Hget)
    as (_ & Hauth & _ & Hname & _).
  done.
Defined.

(** ** Catalogs as ordered maps without repeated keys *)

Lemma register_models_NoDup authType models modelMap index modelMap' index' :
  NoDup (OMap.keys modelMap) →
  register_models authType models modelMap index = Ok (modelMap', index') →
  NoDup (OMap.keys modelMap').
Proof.
  revert modelMap index.
  induction models as [|config rest IH]; intros modelMap index Hnodup; simpl.
  - by intros [= <- <-].
  - destruct (resolveModelConfig config authType) as [r|e]; simpl; [|done].
    apply IH. by apply omap_set_NoDup.
Qed.

Lemma register_entries_catalogs
    (Q : AuthType → OMap.t ResolvedModelConfig → Prop) cfg this this' :
  (∀ authType models index modelMap index',
     register_models authType models OMap.empty index = Ok (modelMap, index') →
     Q authType modelMap) →
  Forall (λ entry, Q entry.1 entry.2) (modelsByAuthType this) →
  NoDup (OMap.keys (modelsByAuthType this)) →
  register_entries cfg this = Ok this' →
  Forall (λ entry, Q entry.1 entry.2) (modelsByAuthType this')
  ∧ NoDup (OMap.keys (modelsByAuthType this')).
Proof.
  intros HQ. revert this.
  induction cfg as [|[key models] rest IH]; intros this Hinv Hnodup; simpl.
  - by intros [= <-].
  - case_decide as Hq; [by apply IH|].
    destruct (registerAuthTypeModels key models this) as [this1|e] eqn:H1;
      simpl; [|done].
    apply registerAuthTypeModels_Ok in H1 as (modelMap & Hok & Hmap).
    apply IH; rewrite Hmap.
    + apply (omap_set_Forall (λ entry, Q entry.1 entry.2)); [|done].
      simpl. by eapply HQ.
    + by apply omap_set_NoDup.
Qed.

Lemma ModelRegistry_new_catalogs
    (Q : AuthType → OMap.t ResolvedModelConfig → Prop) cfg reg :
  (∀ authType models index modelMap index',
     register_models authType models OMap.empty index = Ok (modelMap, index') →
     Q authType modelMap) →
  ModelRegistry_new cfg = Ok reg →
  NoDup (OMap.keys (modelsByAuthType reg))
  ∧ ∀ authType modelMap,
      OMap.get authType (modelsByAuthType reg) = Some modelMap →
      Q authType modelMap.
Proof.
  intros HQ Hnew.
  assert (ModelRegistry_new (Some (default [] cfg)) = Ok reg) as Hnew'
    by (by destruct cfg).
  rewrite ModelRegistry_new_Some in Hnew'.
  destruct (registerAuthTypeModels QWEN_OAUTH QWEN_OAUTH_MODELS empty_registry)
    as [this|e] eqn:Hbuiltin; simpl in Hnew'; [|done].
  apply registerAuthTypeModels_Ok in Hbuiltin as (modelMap & Hok & Hmap).
  assert (Forall (λ entry, Q entry.1 entry.2) (modelsByAuthType this)) as H0.
  { rewrite Hmap. simpl. constructor; [|constructor]. simpl. by eapply HQ. }
  assert (NoDup (OMap.keys (modelsByAuthType this))) as H1.
  { rewrite Hmap. simpl. apply NoDup_singleton. }
  destruct (register_entries_catalogs Q _ _ _ HQ H0 H1 Hnew')
    as [Hall Hnodup].
  split; [done|]. intros authType mm Hget%omap_get_elem_of.
  rewrite Forall_forall in Hall. exact (Hall _ Hget).
Qed.

(** The catalog of a provider-type in a constructed registry: no key twice,
    and under every key a definition resolved for that key. *)
Lemma ModelRegistry_new_catalog cfg reg authType modelMap :
  ModelRegistry_new cfg = Ok reg →
  OMap.get authType (modelsByAuthType reg) = Some modelMap →
  NoDup (OMap.keys modelMap)
  ∧ Forall (λ entry, well_resolved authType entry.1 entry.2) modelMap.
Proof.
  intros Hnew Hget.
  refine (proj2 (ModelRegistry_new_catalogs
            (λ a mm, NoDup (OMap.keys mm)
                     ∧ Forall (λ entry, well_resolved a entry.1 entry.2) mm)
            cfg reg _ Hnew) authType modelMap Hget).
  intros a models index mm index' Hok. split.
  - eapply register_models_NoDup; [|exact Hok]. apply NoDup_nil_2.
  - eapply register_models_Forall; [| |exact Hok]; [|constructor].
    intros config r. apply resolveModelConfig_well_resolved.
Qed.

Lemma catalog_ids (authType : AuthType) (modelMap : OMap.t ResolvedModelConfig) :
  Forall (λ entry, well_resolved authType entry.1 entry.2) modelMap →
  Resolved.id <$> OMap.values modelMap = OMap.keys modelMap.
Proof.
  unfold OMap.values, OMap.keys.
  induction 1 as [|[k r] mm (Hid & _) _ IH]; csimpl; [done|].
  simpl in Hid. by rewrite Hid, IH.
Qed.

(** X2. In a constructed registry the listing of a provider-type and the
    lookups agree: an identifier is listed exactly when [hasModel] holds of
    it, no identifier is listed twice, and every summary is the one of the
    definition [getModel] returns for its identifier, tagged with the
    provider-type that was asked for. *)
Theorem getModelsForAuthType_agrees_with_lookups
    (cfg : option ModelProvidersConfig) (reg : ModelRegistry)
    (authType : AuthType) :
  ModelRegistry_new cfg = Ok reg →
  (∀ modelId,
     modelId ∈ Available.id <$> getModelsForAuthType reg authType
     ↔ hasModel reg authType modelId = true)
  ∧ NoDup (Available.id <$> getModelsForAuthType reg authType)
  ∧ Forall
      (λ summary,
         Available.authType summary = authType
         ∧ ∃ r,
             getModel reg authType (Available.id summary) = Some r
             ∧ Available.label summary = Resolved.name r
             ∧ Available.description summary = Resolved.description r
             ∧ Available.capabilities summary = Some (Resolved.capabilities r)
             ∧ Available.isVision summary
               = default false (vision (Resolved.capabilities r)))
      (getModelsForAuthType reg authType).
Proof.
  intros Hnew. unfold getModelsForAuthType, hasModel, getModel.
  destruct (OMap.get authType (modelsByAuthType reg)) as [mm|] eqn:Hget.
  - destruct (ModelRegistry_new_catalog _ _ _ _ Hnew Hget) as [Hnodup Hall].
    rewrite <- list_fmap_compose.
    change (Available.id ∘ _) with Resolved.id.
    rewrite (catalog_ids _ _ Hall). split; [|split; [done|]].
    + intros modelId. by rewrite omap_has_keys.
    + apply Forall_fmap. apply Forall_forall. intros r Hr. simpl.
      apply list_elem_of_fmap in Hr as ([k r'] & -> & Hin). simpl.
      rewrite Forall_forall in Hall.
      destruct (Hall _ Hin) as (Hid & Hauth & _). simpl in Hid, Hauth.
      split; [done|]. exists r'. rewrite Hid.
      by rewrite (omap_get_NoDup _ _ _ Hnodup Hin).
  - split; [|split]; csimpl.
    + intros modelId. split; [by intros []%elem_of_nil|done].
    + apply NoDup_nil_2.
    + constructor.
Qed.

Lemma getModelsForAuthType_agrees_with_lookups_witness :
  ModelRegistry_new (Some defaultConfig) = Ok (registry_of (Some defaultConfig))
  ∧ hasModel (registry_of (Some defaultConfig)) "openai" "gpt-3.5-turbo" = true
  ∧ "gpt-3.5-turbo"
    ∈ Available.id <$> getModelsForAuthType (registry_of (Some defaultConfig))
                         "openai".
Proof.
  assert (ModelRegistry_new (Some defaultConfig)
          = Ok (registry_of (Some defaultConfig))) as Hnew by reflexivity.
  assert (hasModel (registry_of (Some defaultConfig)) "openai" "gpt-3.5-turbo"
          = true) as Hhas by (by vm_compute).
  split; [exact Hnew|]. split; [exact Hhas|].
  destruct (getModelsForAuthType_agrees_with_lookups _ _ "openai" Hnew)
    as (Hiff & _).
  by apply Hiff.
Defined.

(** X3. In any registry the four ways of asking whether a provider-type
    has models agree: [hasAuthType] holds exactly when some identifier
    satisfies [hasModel], exactly when there is a first model, and exactly
    when the listing is not empty. *)
Theorem hasAuthType_agrees_with_queries
    (reg : ModelRegistry) (authType : AuthType) :
  (hasAuthType reg authType = true
   ↔ ∃ modelId, hasModel reg authType modelId = true)
  ∧ (hasAuthType reg authType = true
     ↔ is_Some (getFirstModelForAuthType reg authType))
  ∧ (hasAuthType reg authType = true
     ↔ getModelsForAuthType reg authType ≠ []).
Proof.
  unfold hasAuthType, hasModel, getFirstModelForAuthType, getModelsForAuthType.
  destruct (OMap.get authType (modelsByAuthType reg)) as [[|[k r] mm]|];
    csimpl.
  - split; [|split]; (split; [done|]).
    + by intros [modelId ?].
    + by intros [? ?].
    + done.
  - split; [|split]; (split; [intros _|done]).
    + exists k. unfold OMap.has. simpl. by rewrite decide_True.
    + by eexists.
    + done.
  - split; [|split]; (split; [done|]).
    + by intros [modelId ?].
    + by intros [? ?].
    + done.
Qed.

Lemma hasAuthType_agrees_with_queries_witness :
  hasAuthType (registry_of (Some defaultConfig)) "openai" = true
  ∧ ∃ modelId,
      hasModel (registry_of (Some defaultConfig)) "openai" modelId = true.
Proof.
  assert (hasAuthType (registry_of (Some defaultConfig)) "openai" = true)
    as Hhas by (by vm_compute).
  split; [exact Hhas|].
  destruct (hasAuthType_agrees_with_queries
              (registry_of (Some defaultConfig)) "openai") as ([Hex _] & _).
  exact (Hex Hhas).
Defined.

(** ** The provider-types of a registry *)

Lemma register_entries_keys cfg this this' :
  NoDup cfg.*1 →
  (∀ key, key ∈ OMap.keys (modelsByAuthType this) →
          key ∉ (user_entries cfg).*1) →
  register_entries cfg this = Ok this' →
  OMap.keys (modelsByAuthType this')
  = OMap.keys (modelsByAuthType this) ++ (user_entries cfg).*1.
Proof.
  revert this.
  induction cfg as [|[key models] rest IH]; intros this Hnodup Hfresh.
  - simpl. intros [= <-]. by rewrite app_nil_r.
  - csimpl in Hnodup. apply NoDup_cons in Hnodup as [Hkey Hnodup].
    simpl. destruct (decide (key = QWEN_OAUTH)) as [->|Hq].
    + rewrite user_entries_cons_qwen in *. by apply IH.
    + rewrite (user_entries_cons_other _ _ _ Hq) in *. csimpl in *.
      destruct (registerAuthTypeModels key models this) as [this1|e] eqn:H1;
        simpl; [|done].
      apply registerAuthTypeModels_Ok in H1 as (modelMap & Hok & Hmap).
      intros Hrest.
      assert (OMap.keys (modelsByAuthType this1)
              = OMap.keys (modelsByAuthType this) ++ [key]) as Hkeys.
      { rewrite Hmap, omap_keys_set. case_decide as Hin; [|done].
        exfalso. apply (Hfresh key Hin). by left. }
      rewrite (IH this1 Hnodup); [by rewrite Hkeys, <- app_assoc| |done].
      intros k Hk Hin. rewrite Hkeys in Hk.
      apply elem_of_app in Hk as [Hk| ->%list_elem_of_singleton].
      * apply (Hfresh k Hk). by right.
      * apply Hkey. apply list_elem_of_fmap in Hin as (entry & -> & Hentry).
        apply list_elem_of_filter in Hentry as [_ Hentry].
        apply list_elem_of_fmap. by exists entry.
Qed.

(** X4. The provider-types of a constructed registry are the built-in one
    followed by the other keys of the configuration in their order; a key
    with an empty list of models is among them, although the registry has
    no models for it. *)
Theorem getAvailableAuthTypes_lists_every_key
    (cfg : ModelProvidersConfig) (reg : ModelRegistry) :
  ModelRegistry_new (Some cfg) = Ok reg →
  NoDup cfg.*1 →
  getAvailableAuthTypes reg = QWEN_OAUTH :: (user_entries cfg).*1
  ∧ ∀ authType,
      authType ≠ QWEN_OAUTH → (authType, []) ∈ cfg →
      authType ∈ getAvailableAuthTypes reg
      ∧ hasAuthType reg authType = false
      ∧ getModelsForAuthType reg authType = [].
Proof.
  intros Hnew Hnodup. rewrite ModelRegistry_new_Some in Hnew.
  destruct builtin_registered as (this & index & Hbuiltin & Hthis & _).
  rewrite Hbuiltin in Hnew. simpl in Hnew.
  assert (getAvailableAuthTypes reg = QWEN_OAUTH :: (user_entries cfg).*1)
    as Hkeys.
  { unfold getAvailableAuthTypes.
    rewrite (register_entries_keys _ _ _ Hnodup) with (2 := Hnew);
      [by rewrite Hthis|].
    rewrite Hthis. simpl. intros key ->%list_elem_of_singleton Hin.
    apply list_elem_of_fmap in Hin as (entry & Hkey & Hentry).
    by apply list_elem_of_filter in Hentry as [Hne _]. }
  split; [exact Hkeys|]. intros authType Hne Hin.
  destruct (register_entries_get _ _ _ _ _ Hnew Hnodup Hin Hne)
    as (modelMap & i & i' & Hok & Hget).
  simpl in Hok. injection Hok as <- <-.
  split; [|split].
  - rewrite Hkeys. right. apply list_elem_of_fmap. exists (authType, []).
    split; [done|]. by apply list_elem_of_filter.
  - unfold hasAuthType. by rewrite Hget.
  - unfold getModelsForAuthType. by rewrite Hget.
Qed.

Lemma getAvailableAuthTypes_lists_every_key_witness :
  ModelRegistry_new (Some [("openai", [])])
    = Ok (registry_of (Some [("openai", [])]))
  ∧ NoDup ([("openai", [])] : ModelProvidersConfig).*1
  ∧ getAvailableAuthTypes (registry_of (Some [("openai", [])]))
    = ["qwen-oauth"; "openai"]
  ∧ hasAuthType (registry_of (Some [("openai", [])])) "openai" = false.
Proof.
  assert (ModelRegistry_new (Some [("openai", [])])
          = Ok (registry_of (Some [("openai", [])]))) as Hnew by reflexivity.
  assert (NoDup ([("openai", [])] : ModelProvidersConfig).*1) as Hnodup
    by apply NoDup_singleton.
  split; [exact Hnew|]. split; [exact Hnodup|].
  destruct (getAvailableAuthTypes_lists_every_key _ _ Hnew Hnodup)
    as [Hkeys Hempty].
  split; [exact Hkeys|].
  destruct (Hempty "openai") as (_ & Hhas & _); [done|by left|exact Hhas].
Defined.

(** ** Counting *)

Lemma foldl_count_sizes {V : Type} (maps : list (OMap.t V)) (count : nat) :
  foldl (λ count models, count + OMap.size models) count maps
  = count + sum_list (OMap.size <$> maps).
Proof.
  revert count. induction maps as [|mm maps IH]; intros count; csimpl.
  - lia.
  - rewrite IH. lia.
Qed.

Lemma getTotalModelCount_sum reg :
  getTotalModelCount reg
  = sum_list (OMap.size <$> OMap.values (modelsByAuthType reg)).
Proof. unfold getTotalModelCount. by rewrite foldl_count_sizes. Qed.

(** X5. In a constructed registry the total model count is the sum, over
    the provider-types [getAvailableAuthTypes] lists, of the lengths of
    their listings; the two built-in models are always counted. *)
Theorem getTotalModelCount_sums_the_listings
    (cfg : option ModelProvidersConfig) (reg : ModelRegistry) :
  ModelRegistry_new cfg = Ok reg →
  getTotalModelCount reg
  = sum_list ((λ authType, length (getModelsForAuthType reg authType))
                <$> getAvailableAuthTypes reg)
  ∧ (2 ≤ getTotalModelCount reg)%nat.
Proof.
  intros Hnew.
  assert (getTotalModelCount reg
          = sum_list ((λ authType, length (getModelsForAuthType reg authType))
                        <$> getAvailableAuthTypes reg)) as Hsum.
  { rewrite getTotalModelCount_sum. f_equal.
    unfold getAvailableAuthTypes, OMap.keys, OMap.values.
    rewrite <- !list_fmap_compose. apply Forall_fmap_ext.
    destruct (ModelRegistry_new_catalogs (λ _ _, True) cfg reg) as [Hnodup _];
      [done|done|].
    apply Forall_forall. intros [k mm] Hin. simpl.
    unfold getModelsForAuthType.
    rewrite (omap_get_NoDup _ _ _ Hnodup Hin).
    unfold OMap.size, OMap.values. by rewrite !length_fmap. }
  split; [exact Hsum|]. rewrite Hsum.
  assert (ModelRegistry_new (Some (default [] cfg)) = Ok reg) as Hnew'
    by (by destruct cfg).
  pose proof (ModelRegistry_new_builtin_catalog _ _ Hnew') as Hqwen.
  assert (QWEN_OAUTH ∈ getAvailableAuthTypes reg) as Hin.
  { apply omap_has_keys. unfold OMap.has. by rewrite Hqwen. }
  apply list_elem_of_split in Hin as (l1 & l2 & ->).
  rewrite fmap_app, sum_list_with_app. csimpl.
  unfold getModelsForAuthType at 2. rewrite Hqwen. simpl. lia.
Qed.

Lemma getTotalModelCount_sums_the_listings_witness :
  ModelRegistry_new (Some defaultConfig) = Ok (registry_of (Some defaultConfig))
  ∧ getTotalModelCount (registry_of (Some defaultConfig)) = 5.
Proof.
  assert (ModelRegistry_new (Some defaultConfig)
          = Ok (registry_of (Some defaultConfig))) as Hnew by reflexivity.
  split; [exact Hnew|].
  destruct (getTotalModelCount_sums_the_listings _ _ Hnew) as [-> _].
  by vm_compute.
Defined.

(** ** When construction succeeds *)

Lemma register_models_app authType models1 models2 modelMap index :
  register_models authType (models1 ++ models2) modelMap index
  = try! out := register_models authType models1 modelMap index in
    register_models authType models2 out.1 out.2.
Proof.
  revert modelMap index.
  induction models1 as [|config rest IH]; intros modelMap index; simpl;
    [done|].
  destruct (resolveModelConfig config authType) as [r|e]; simpl; [|done].
  apply IH.
Qed.

Lemma register_entries_app cfg1 cfg2 this :
  register_entries (cfg1 ++ cfg2) this
  = try! this' := register_entries cfg1 this in register_entries cfg2 this'.
Proof.
  revert this.
  induction cfg1 as [|[key models] rest IH]; intros this; simpl; [done|].
  case_decide; [apply IH|].
  destruct (registerAuthTypeModels key models this) as [this1|e]; simpl;
    [|done].
  apply IH.
Qed.

Lemma register_models_wellformed authType models modelMap index :
  Forall (λ config, ¬ malformed config) models →
  ∃ out, register_models authType models modelMap index = Ok out.
Proof.
  intros Hok. revert modelMap index.
  induction Hok as [|config rest Hhd _ IH]; intros modelMap index; simpl.
  - by eexists.
  - destruct (resolveModelConfig config authType) as [r|e] eqn:Hres; simpl.
    + apply IH.
    + by apply resolveModelConfig_Throw in Hres as [Hbad _].
Qed.

Lemma register_models_malformed authType models modelMap index :
  Exists malformed models →
  register_models authType models modelMap index
  = Throw (Error (missing_id_message authType)).
Proof.
  intros Hbad.
  destruct (register_models authType models modelMap index) as [out|e] eqn:Hreg.
  - apply register_models_Ok in Hreg.
    apply Exists_exists in Hbad as (c & Hc & Hmal).
    rewrite Forall_forall in Hreg. by destruct (Hreg c Hc).
  - by apply register_models_Throw in Hreg as [-> _].
Qed.

Lemma register_entries_wellformed cfg this :
  Forall (λ entry, Forall (λ config, ¬ malformed config) entry.2)
    (user_entries cfg) →
  ∃ this', register_entries cfg this = Ok this'.
Proof.
  revert this.
  induction cfg as [|[key models] rest IH]; intros this Hok; simpl.
  - by eexists.
  - destruct (decide (key = QWEN_OAUTH)) as [->|Hq].
    + rewrite user_entries_cons_qwen in Hok. by apply IH.
    + rewrite (user_entries_cons_other _ _ _ Hq) in Hok.
      apply Forall_cons in Hok as [Hhd Htl]. simpl in Hhd.
      unfold registerAuthTypeModels.
      destruct (register_models_wellformed key models OMap.empty
                  (modelIdToAuthTypes this) Hhd) as [[mm idx] ->].
      simpl. by apply IH.
Qed.

Lemma register_entries_Ok cfg this this' :
  register_entries cfg this = Ok this' →
  Forall (λ entry, Forall (λ config, ¬ malformed config) entry.2)
    (user_entries cfg).
Proof.
  revert this.
  induction cfg as [|[key models] rest IH]; intros this; simpl.
  - intros _. constructor.
  - destruct (decide (key = QWEN_OAUTH)) as [->|Hq].
    + rewrite user_entries_cons_qwen. apply IH.
    + rewrite (user_entries_cons_other _ _ _ Hq).
      destruct (registerAuthTypeModels key models this) as [this1|e] eqn:H1;
        simpl; [|done].
      apply registerAuthTypeModels_Ok in H1 as (modelMap & Hok & _).
      intros Hrest. constructor; [|by eapply IH].
      simpl. by eapply register_models_Ok.
Qed.

(** X6. A missing identifier is the only thing that can stop the
    construction: a registry is constructed from a configuration exactly
    when every definition outside the built-in key has a non-empty
    identifier, and the manager is constructed exactly when its registry
    is. *)
Theorem construction_succeeds_iff_identifiers_present
    (cfg : ModelProvidersConfig) :
  ((∃ reg, ModelRegistry_new (Some cfg) = Ok reg)
   ↔ Forall (λ entry, Forall (λ config, ¬ malformed config) entry.2)
       (user_entries cfg))
  ∧ ∀ env now options,
      Options.modelProvidersConfig options = Some cfg →
      ((∃ this, ModelSelectionManager_new env now options = Ok this)
       ↔ ∃ reg, ModelRegistry_new (Some cfg) = Ok reg).
Proof.
  split.
  - rewrite ModelRegistry_new_Some.
    destruct builtin_registered as (this & index & -> & _ & _). simpl. split.
    + intros [reg Hreg]. by eapply register_entries_Ok.
    + apply register_entries_wellformed.
  - intros env now options Hcfg. unfold ModelSelectionManager_new.
    rewrite Hcfg.
    destruct (ModelRegistry_new (Some cfg)) as [reg|e]; simpl.
    + split; intros _; by eexists.
    + split; by intros [? ?].
Qed.

Lemma construction_succeeds_iff_identifiers_present_witness :
  Forall (λ entry : string * list ModelConfig.t,
            Forall (λ config, ¬ malformed config) entry.2)
    (user_entries sharedConfig)
  ∧ ∃ reg, ModelRegistry_new (Some sharedConfig) = Ok reg.
Proof.
  assert (Forall (λ entry : string * list ModelConfig.t,
                    Forall (λ config, ¬ malformed config) entry.2)
            (user_entries sharedConfig)) as Hok.
  { repeat constructor; by intros ?. }
  split; [exact Hok|].
  destruct (construction_succeeds_iff_identifiers_present sharedConfig)
    as [[_ Hnew] _].
  exact (Hnew Hok).
Defined.

(** X7. The error of a failed construction names the first key, in the
    order of the configuration and outside the built-in key, that holds a
    definition without identifier: entries before it were registered
    without error, entries after it are never looked at. *)
Theorem construction_error_names_first_offender
    (before after : ModelProvidersConfig) (authType : AuthType)
    (models : list ModelConfig.t) :
  Forall (λ entry, Forall (λ config, ¬ malformed config) entry.2)
    (user_entries before) →
  authType ≠ QWEN_OAUTH →
  Exists malformed models →
  ModelRegistry_new (Some (before ++ (authType, models) :: after))
  = Throw (Error (missing_id_message authType)).
Proof.
  intros Hbefore Hne Hbad. rewrite ModelRegistry_new_Some.
  destruct builtin_registered as (this & index & -> & _ & _). simpl.
  rewrite register_entries_app.
  destruct (register_entries_wellformed before this Hbefore) as [this1 ->].
  simpl. rewrite decide_False by done.
  unfold registerAuthTypeModels. by rewrite register_models_malformed.
Qed.

Lemma construction_error_names_first_offender_witness :
  ModelRegistry_new
    (Some [ ("openai", [model_config "gpt-4" None None]);
            ("gemini-api-key", [model_config "" None None]);
            ("vertex-ai", [model_config "" None None]) ])
  = Throw (Error
      "Model config in authType 'gemini-api-key' missing required field: id").
Proof.
  apply (construction_error_names_first_offender
           [ ("openai", [model_config "gpt-4" None None]) ]
           [ ("vertex-ai", [model_config "" None None]) ]
           "gemini-api-key" [model_config "" None None]).
  - repeat constructor; by intros ?.
  - done.
  - by left.
Defined.

(** ** Repeated and distinct identifiers within one entry *)

Lemma register_models_get_other authType models modelMap index modelMap'
    index' modelId :
  Forall (λ config, ModelConfig.id config ≠ Some modelId) models →
  register_models authType models modelMap index = Ok (modelMap', index') →
  OMap.get modelId modelMap' = OMap.get modelId modelMap.
Proof.
  intros Hother. revert modelMap index.
  induction Hother as [|config rest Hhd _ IH]; intros modelMap index; simpl.
  - by intros [= <- <-].
  - destruct (resolveModelConfig config authType) as [r|e] eqn:Hres;
      simpl; [|done].
    apply resolveModelConfig_Ok in Hres as (id & Hid & _ & ->). simpl.
    intros Hrest. rewrite (IH _ _ Hrest).
    apply omap_get_set_ne. congruence.
Qed.

Lemma register_models_get_last authType before config after modelMap index
    modelMap' index' modelId :
  ModelConfig.id config = Some modelId →
  Forall (λ c, ModelConfig.id c ≠ Some modelId) after →
  register_models authType (before ++ config :: after) modelMap index
    = Ok (modelMap', index') →
  ∃ r, resolveModelConfig config authType = Ok r
     ∧ OMap.get modelId modelMap' = Some r.
Proof.
  intros Hid Hafter. rewrite register_models_app.
  destruct (register_models authType before modelMap index)
    as [[mm1 idx1]|e]; simpl; [|done].
  destruct (resolveModelConfig config authType) as [r|e] eqn:Hres;
    simpl; [|done].
  intros Hrest. exists r. split; [done|].
  rewrite (register_models_get_other _ _ _ _ _ _ _ Hafter Hrest).
  apply resolveModelConfig_Ok in Hres as (id & Hid' & _ & ->). simpl.
  rewrite Hid in Hid'. injection Hid' as <-. apply omap_get_set_eq.
Qed.

(** X8. When an entry of the configuration defines an identifier more than
    once, the registry keeps the last of these definitions: the lookup of
    the identifier returns the resolution of the last definition with that
    identifier in the entry. *)
Theorem getModel_returns_last_definition
    (cfg : ModelProvidersConfig) (reg : ModelRegistry) (authType : AuthType)
    (before after : list ModelConfig.t) (config : ModelConfig.t)
    (modelId : string) :
  ModelRegistry_new (Some cfg) = Ok reg →
  NoDup cfg.*1 →
  authType ≠ QWEN_OAUTH →
  (authType, before ++ config :: after) ∈ cfg →
  ModelConfig.id config = Some modelId →
  Forall (λ c, ModelConfig.id c ≠ Some modelId) after →
  ∃ r, resolveModelConfig config authType = Ok r
     ∧ getModel reg authType modelId = Some r.
Proof.
  intros Hnew Hnodup Hne Hin Hid Hafter.
  rewrite ModelRegistry_new_Some in Hnew.
  destruct builtin_registered as (this & index & Hbuiltin & _ & _).
  rewrite Hbuiltin in Hnew. simpl in Hnew.
  destruct (register_entries_get _ _ _ _ _ Hnew Hnodup Hin Hne)
    as (modelMap & i & i' & Hok & Hget).
  destruct (register_models_get_last _ _ _ _ _ _ _ _ _ Hid Hafter Hok)
    as (r & Hres & Hr).
  exists r. split; [done|]. unfold getModel. by rewrite Hget.
Qed.

Lemma getModel_returns_last_definition_witness :
  ModelRegistry_new (Some repeatedConfig)
    = Ok (registry_of (Some repeatedConfig))
  ∧ Resolved.name <$> getModel (registry_of (Some repeatedConfig)) "openai"
                        "gpt-4"
    = Some "Second"
  ∧ Available.id <$> getModelsForAuthType (registry_of (Some repeatedConfig))
                       "openai"
    = ["gpt-4"; "gpt-3.5"].
Proof.
  assert (ModelRegistry_new (Some repeatedConfig)
          = Ok (registry_of (Some repeatedConfig))) as Hnew by reflexivity.
  split; [exact Hnew|]. split; [|by vm_compute].
  destruct (getModel_returns_last_definition repeatedConfig
              (registry_of (Some repeatedConfig)) "openai"
              [ model_config "gpt-4" (Some "First") None;
                model_config "gpt-3.5" None None ]
              [] (model_config "gpt-4" (Some "Second") None) "gpt-4" Hnew)
    as (r & Hres & Hget).
  - apply NoDup_singleton.
  - done.
  - by left.
  - done.
  - constructor.
  - rewrite Hget. simpl. by injection Hres as <-.
Defined.

Lemma register_models_keys authType models modelMap index modelMap' index' :
  NoDup (OMap.keys modelMap ++ omap ModelConfig.id models) →
  register_models authType models modelMap index = Ok (modelMap', index') →
  OMap.keys modelMap' = OMap.keys modelMap ++ omap ModelConfig.id models.
Proof.
  revert modelMap index.
  induction models as [|config rest IH]; intros modelMap index Hnodup; simpl.
  - intros [= <- <-]. by rewrite app_nil_r.
  - destruct (resolveModelConfig config authType) as [r|e] eqn:Hres;
      simpl; [|done].
    apply resolveModelConfig_Ok in Hres as (id & Hid & _ & Hr).
    assert (Resolved.id r = id) as -> by (by rewrite Hr). clear Hr.
    csimpl in Hnodup. rewrite Hid in *. csimpl in *.
    assert (OMap.keys (OMap.set id r modelMap) = OMap.keys modelMap ++ [id])
      as Hkeys.
    { rewrite omap_keys_set. case_decide as Hin; [|done].
      apply NoDup_app in Hnodup as (_ & Hdisj & _).
      exfalso. apply (Hdisj id Hin). by left. }
    intros Hrest. rewrite (IH _ _) with (2 := Hrest).
    + by rewrite Hkeys, <- app_assoc.
    + rewrite Hkeys, <- app_assoc. done.
Qed.

(** X9. When the identifiers of an entry are pairwise distinct, the listing
    of its provider-type gives them in the order of the configuration. *)
Theorem getModelsForAuthType_keeps_declaration_order
    (cfg : ModelProvidersConfig) (reg : ModelRegistry) (authType : AuthType)
    (models : list ModelConfig.t) :
  ModelRegistry_new (Some cfg) = Ok reg →
  NoDup cfg.*1 →
  authType ≠ QWEN_OAUTH →
  (authType, models) ∈ cfg →
  NoDup (omap ModelConfig.id models) →
  Available.id <$> getModelsForAuthType reg authType
  = omap ModelConfig.id models
  ∧ length (getModelsForAuthType reg authType) = length models.
Proof.
  intros Hnew Hnodup Hne Hin Hids.
  pose proof Hnew as Hnew0.
  rewrite ModelRegistry_new_Some in Hnew.
  destruct builtin_registered as (this & index & Hbuiltin & _ & _).
  rewrite Hbuiltin in Hnew. simpl in Hnew.
  destruct (register_entries_get _ _ _ _ _ Hnew Hnodup Hin Hne)
    as (modelMap & i & i' & Hok & Hget).
  destruct (ModelRegistry_new_catalog _ _ _ _ Hnew0 Hget) as [_ Hall].
  assert (Available.id <$> getModelsForAuthType reg authType
          = omap ModelConfig.id models) as Horder.
  { unfold getModelsForAuthType. rewrite Hget, <- list_fmap_compose.
    change (Available.id ∘ _) with Resolved.id.
    rewrite (catalog_ids _ _ Hall).
    by rewrite (register_models_keys authType models OMap.empty _ _ _ Hids Hok). }
  split; [exact Horder|].
  apply (f_equal length) in Horder. rewrite length_fmap in Horder.
  rewrite Horder. clear -Hok.
  apply register_models_Ok in Hok.
  induction Hok as [|config rest Hhd _ IH]; csimpl; [done|].
  unfold malformed, falsy in Hhd.
  destruct (ModelConfig.id config); csimpl; [by rewrite IH|done].
Qed.

Lemma getModelsForAuthType_keeps_declaration_order_witness :
  ModelRegistry_new (Some defaultConfig) = Ok (registry_of (Some defaultConfig))
  ∧ Available.id <$> getModelsForAuthType (registry_of (Some defaultConfig))
                       "openai"
    = ["gpt-4-turbo"; "gpt-3.5-turbo"; "deepseek-coder"].
Proof.
  assert (ModelRegistry_new (Some defaultConfig)
          = Ok (registry_of (Some defaultConfig))) as Hnew by reflexivity.
  split; [exact Hnew|].
  destruct (getModelsForAuthType_keeps_declaration_order defaultConfig
              (registry_of (Some defaultConfig)) "openai"
              [ model_config "gpt-4-turbo" (Some "GPT-4 Turbo")
                  (Some "https://api.openai.com/v1");
                model_config "gpt-3.5-turbo" (Some "GPT-3.5 Turbo")
                  (Some "https://api.openai.com/v1");
                model_config "deepseek-coder" (Some "DeepSeek Coder")
                  (Some "https://api.deepseek.com/v1") ] Hnew)
    as [Horder _].
  - apply NoDup_singleton.
  - done.
  - by left.
  - apply (bool_decide_unpack _). by vm_compute.
  - exact Horder.
Defined.

(** * Further properties of the selection manager *)

Lemma getModel_Some_hasModel reg authType modelId r :
  getModel reg authType modelId = Some r → hasModel reg authType modelId = true.
Proof.
  intros Hget.
  destruct (hasModel reg authType modelId) eqn:Hhas; [done|].
  apply hasModel_getModel in Hhas. congruence.
Qed.

Lemma hasModel_true_getModel reg authType modelId :
  hasModel reg authType modelId = true →
  ∃ r, getModel reg authType modelId = Some r.
Proof.
  intros Hhas.
  destruct (getModel reg authType modelId) as [r|] eqn:Hget; [by exists r|].
  apply hasModel_getModel in Hget. congruence.
Qed.

(** X10. A switch to an identifier of the current provider-type, with no
    callback or with a callback that succeeds, ends without error, and the
    current selection read back right after it is the definition the
    registry has for the target, with the source of the switch. *)
Theorem switchModel_then_getCurrentModel
    (cfg : option ModelProvidersConfig) (now : Z) (modelId : string)
    (source : SelectionSource) (metadata : option ModelSwitchMetadata)
    (this : ModelSelectionManager) (model : ResolvedModelConfig) :
  ModelRegistry_new cfg = Ok (modelRegistry this) →
  getModel (modelRegistry this) (currentAuthType this) modelId = Some model →
  (∀ callback, onModelChange this = Some callback →
               callback (currentAuthType this) model = None) →
  let after := (switchModel now modelId source metadata this).1 in
  (switchModel now modelId source metadata this).2 = Ok ()
  ∧ getCurrentModel after
    = Ok {| CurrentModelInfo.authType := currentAuthType this;
            CurrentModelInfo.modelId := modelId;
            CurrentModelInfo.model := model;
            CurrentModelInfo.selectionSource := source |}
  ∧ getSelectionTimestamp after = now.
Proof.
  intros Hnew Hmodel Hcb.
  destruct (ModelRegistry_new_well_resolved _ _ _ _ _ Hnew Hmodel)
    as (_ & _ & Hne & _).
  assert (switchModel now modelId source metadata this
          = (set_selectionTimestamp now
               (set_selectionSource source (set_currentModelId modelId this)),
             Ok ())) as ->.
  { unfold switchModel. rewrite Hmodel. simpl.
    destruct (onModelChange this) as [callback|] eqn:Hcallback; [|done].
    by rewrite (Hcb callback eq_refl). }
  simpl. split; [done|]. split; [|done].
  unfold getCurrentModel, falsy. simpl.
  rewrite bool_decide_eq_false_2 by done. by rewrite Hmodel.
Qed.

Lemma switchModel_then_getCurrentModel_witness :
  ModelRegistry_new (Some defaultConfig)
    = Ok (modelRegistry (setOnModelChange (λ _ _, None) sample_manager))
  ∧ ∃ model,
      getCurrentModel
        (switchModel 2000 "deepseek-coder" USER_MANUAL None
           (setOnModelChange (λ _ _, None) sample_manager)).1
      = Ok {| CurrentModelInfo.authType := "openai";
              CurrentModelInfo.modelId := "deepseek-coder";
              CurrentModelInfo.model := model;
              CurrentModelInfo.selectionSource := USER_MANUAL |}.
Proof.
  assert (ModelRegistry_new (Some defaultConfig)
          = Ok (modelRegistry (setOnModelChange (λ _ _, None) sample_manager)))
    as Hnew by reflexivity.
  split; [exact Hnew|].
  destruct (getModel (registry_of (Some defaultConfig)) "openai"
              "deepseek-coder") as [model|] eqn:Hget;
    [|by vm_compute in Hget].
  exists model.
  destruct (switchModel_then_getCurrentModel (Some defaultConfig) 2000
              "deepseek-coder" USER_MANUAL None
              (setOnModelChange (λ _ _, None) sample_manager) model Hnew Hget)
    as (_ & Hcurrent & _).
  - by intros callback [= <-].
  - exact Hcurrent.
Defined.

(** X11. Whatever its arguments and however it ends, a switch never
    changes the provider-type, the registry or the callback; when it ends
    with an error the current identifier is the one from before the call,
    and when it ends without error the current identifier is the target.
    So a current identifier that the registry resolves is still resolved
    after any switch. *)
Theorem switchModel_keeps_selection_valid
    (now : Z) (modelId : string) (source : SelectionSource)
    (metadata : option ModelSwitchMetadata) (this : ModelSelectionManager) :
  let after := (switchModel now modelId source metadata this).1 in
  let outcome := (switchModel now modelId source metadata this).2 in
  modelRegistry after = modelRegistry this
  ∧ currentAuthType after = currentAuthType this
  ∧ onModelChange after = onModelChange this
  ∧ (∀ e, outcome = Throw e → currentModelId after = currentModelId this)
  ∧ (outcome = Ok () →
     currentModelId after = modelId
     ∧ selectionSource after = source
     ∧ selectionTimestamp after = now)
  ∧ (is_Some (getModel (modelRegistry this) (currentAuthType this)
                (currentModelId this)) →
     is_Some (getModel (modelRegistry after) (currentAuthType after)
                (currentModelId after))).
Proof.
  unfold switchModel.
  destruct (getModel (modelRegistry this) (currentAuthType this) modelId)
    as [model|] eqn:Hmodel; simpl.
  - destruct (onModelChange this) as [callback|] eqn:Hcb; simpl.
    + destruct (callback (currentAuthType this) model) as [error|]; simpl;
        repeat split; try done; by rewrite Hmodel.
    + repeat split; try done; by rewrite Hmodel.
  - repeat split; done.
Qed.

Lemma switchModel_keeps_selection_valid_witness :
  is_Some (getModel (modelRegistry sample_manager)
             (currentAuthType sample_manager) (currentModelId sample_manager))
  ∧ is_Some
      (getModel (registry_of (Some defaultConfig)) "openai"
         (currentModelId
            (switchModel 2000 "gpt-3.5-turbo" USER_MANUAL None
               sample_manager).1)).
Proof.
  assert (is_Some (getModel (modelRegistry sample_manager)
                     (currentAuthType sample_manager)
                     (currentModelId sample_manager))) as Hvalid
    by (apply (bool_decide_unpack _); by vm_compute).
  split; [exact Hvalid|].
  destruct (switchModel_keeps_selection_valid 2000 "gpt-3.5-turbo" USER_MANUAL
              None sample_manager) as (Hreg & Hauth & _ & _ & _ & Hkeep).
  specialize (Hkeep Hvalid). by rewrite Hreg, Hauth in Hkeep.
Defined.



(** X13. Replacing the callback leaves the selection as it is, and from
    then on the new callback alone decides how a switch to an existing
    identifier ends. *)
Theorem setOnModelChange_decides_later_switches
    (callback : ModelChangeCallback) (now : Z) (modelId : string)
    (source : SelectionSource) (metadata : option ModelSwitchMetadata)
    (this : ModelSelectionManager) (model : ResolvedModelConfig) :
  getModel (modelRegistry this) (currentAuthType this) modelId = Some model →
  getCurrentModel (setOnModelChange callback this) = getCurrentModel this
  ∧ getSelectionTimestamp (setOnModelChange callback this)
    = getSelectionTimestamp this
  ∧ (switchModel now modelId source metadata
       (setOnModelChange callback this)).2
    = match callback (currentAuthType this) model with
      | None => Ok ()
      | Some error => Throw error
      end.
Proof.
  intros Hmodel. split; [done|]. split; [done|].
  unfold switchModel. simpl. rewrite Hmodel. simpl.
  by destruct (callback (currentAuthType this) model).
Qed.

Lemma setOnModelChange_decides_later_switches_witness :
  getModel (modelRegistry sample_manager) (currentAuthType sample_manager)
    "gpt-3.5-turbo" ≠ None
  ∧ (switchModel 2000 "gpt-3.5-turbo" USER_MANUAL None
       (setOnModelChange (λ _ _, None) sample_manager)).2 = Ok ().
Proof.
  destruct (getModel (modelRegistry sample_manager)
              (currentAuthType sample_manager) "gpt-3.5-turbo")
    as [model|] eqn:Hmodel; [|by vm_compute in Hmodel].
  split; [done|].
  destruct (setOnModelChange_decides_later_switches (λ _ _, None) 2000
              "gpt-3.5-turbo" USER_MANUAL None sample_manager model Hmodel)
    as (_ & _ & Hout).
  exact Hout.
Defined.

(** ** The manager right after its construction *)

Lemma ModelSelectionManager_new_Ok env now options this :
  ModelSelectionManager_new env now options = Ok this →
  ∃ reg,
    ModelRegistry_new (Options.modelProvidersConfig options) = Ok reg
    ∧ this
      = initializeDefaultSelection env
          {| modelRegistry := reg;
             onModelChange := Options.onModelChange options;
             currentAuthType :=
               or_else (Options.initialAuthType options) QWEN_OAUTH;
             currentModelId := or_else (Options.initialModelId options) "";
             selectionSource := DEFAULT;
             selectionTimestamp := now |}.
Proof.
  unfold ModelSelectionManager_new.
  destruct (ModelRegistry_new (Options.modelProvidersConfig options))
    as [reg|e]; simpl; [|done].
  intros [= <-]. by exists reg.
Qed.

Lemma initializeDefaultSelection_frame env this :
  modelRegistry (initializeDefaultSelection env this) = modelRegistry this
  ∧ currentAuthType (initializeDefaultSelection env this)
    = currentAuthType this
  ∧ selectionTimestamp (initializeDefaultSelection env this)
    = selectionTimestamp this
  ∧ onModelChange (initializeDefaultSelection env this) = onModelChange this.
Proof.
  unfold initializeDefaultSelection.
  destruct (negb _ && _); [done|].
  destruct (getModelFromEnvironment env this) as [envModel|];
    [destruct (negb _ && _); [done|]|];
    by destruct (getDefaultModelForAuthType _ _).
Qed.

(** The default of a constructed registry is a definition the registry
    resolves under its own identifier. *)
Lemma getDefaultModelForAuthType_registered cfg reg authType d :
  ModelRegistry_new cfg = Ok reg →
  getDefaultModelForAuthType reg authType = Some d →
  Resolved.id d ≠ "" ∧ getModel reg authType (Resolved.id d) = Some d.
Proof.
  intros Hnew. unfold getDefaultModelForAuthType.
  case_decide as Hq.
  - intros Hd.
    destruct (ModelRegistry_new_well_resolved _ _ _ _ _ Hnew Hd)
      as (Hid & _ & Hne & _).
    by rewrite Hid.
  - unfold getFirstModelForAuthType, getModel.
    destruct (OMap.get authType (modelsByAuthType reg)) as [mm|] eqn:Hget;
      [|done].
    case_decide; [done|]. destruct mm as [|[k r] mm]; [done|].
    simpl. intros [= ->].
    destruct (ModelRegistry_new_catalog _ _ _ _ Hnew Hget) as [_ Hall].
    apply Forall_cons in Hall as [(Hid & _ & Hne & _) _]. simpl in Hid, Hne.
    rewrite Hid. split; [done|]. by rewrite decide_True.
Qed.

Lemma hasAuthType_default cfg reg authType :
  ModelRegistry_new cfg = Ok reg →
  hasAuthType reg authType = true →
  is_Some (getDefaultModelForAuthType reg authType).
Proof.
  intros Hnew Hhas.
  assert (ModelRegistry_new (Some (default [] cfg)) = Ok reg) as Hnew'
    by (by destruct cfg).
  unfold getDefaultModelForAuthType, getModel. case_decide as Hq.
  - subst. by rewrite (ModelRegistry_new_builtin_catalog _ _ Hnew').
  - unfold hasAuthType in Hhas. unfold getFirstModelForAuthType.
    by destruct (OMap.get authType (modelsByAuthType reg))
      as [[|[k r] mm]|].
Qed.

Lemma hasAuthType_agrees_iff reg authType :
  hasAuthType reg authType = true
  ↔ ∃ modelId, hasModel reg authType modelId = true.
Proof.
  unfold hasAuthType, hasModel.
  destruct (OMap.get authType (modelsByAuthType reg)) as [[|[k r] mm]|];
    csimpl.
  - split; [done|]. by intros [modelId ?].
  - split; [intros _|done].
    exists k. unfold OMap.has. simpl. by rewrite decide_True.
  - split; [done|]. by intros [modelId ?].
Qed.

Lemma getCurrentModel_Ok_iff this :
  (∃ info, getCurrentModel this = Ok info)
  ↔ currentModelId this ≠ ""
    ∧ is_Some (getModel (modelRegistry this) (currentAuthType this)
                 (currentModelId this)).
Proof.
  unfold getCurrentModel, falsy. case_bool_decide as Hid.
  - split; [by intros [? ?]|]. by intros [? _].
  - destruct (getModel _ _ _) as [r|].
    + split; [done|]. intros _. by eexists.
    + split; [by intros [? ?]|]. by intros [_ [? ?]].
Qed.

Lemma getCurrentModel_Ok this info :
  getCurrentModel this = Ok info →
  CurrentModelInfo.authType info = currentAuthType this
  ∧ CurrentModelInfo.modelId info = currentModelId this
  ∧ getModel (modelRegistry this) (currentAuthType this) (currentModelId this)
    = Some (CurrentModelInfo.model info)
  ∧ CurrentModelInfo.selectionSource info = selectionSource this.
Proof.
  unfold getCurrentModel. destruct (falsy _); [done|].
  destruct (getModel _ _ _) as [r|]; [|done]. by intros [= <-].
Qed.

Lemma initializeDefaultSelection_selected cfg env this0 :
  ModelRegistry_new cfg = Ok (modelRegistry this0) →
  hasAuthType (modelRegistry this0) (currentAuthType this0) = true →
  currentModelId (initializeDefaultSelection env this0) ≠ ""
  ∧ is_Some (getModel (modelRegistry this0) (currentAuthType this0)
               (currentModelId (initializeDefaultSelection env this0))).
Proof.
  intros Hnew Hhas.
  destruct (hasAuthType_default _ _ _ Hnew Hhas) as [d Hd].
  destruct (getDefaultModelForAuthType_registered _ _ _ _ Hnew Hd)
    as [Hdne Hdget].
  unfold initializeDefaultSelection. rewrite Hd.
  destruct (negb (falsy (Some (currentModelId this0)))
            && hasModel (modelRegistry this0) (currentAuthType this0)
                 (currentModelId this0)) eqn:Hpers.
  { apply andb_true_iff in Hpers as [Hne Hhas'].
    apply negb_true_iff, bool_decide_eq_false in Hne.
    split; [done|]. by apply hasModel_true_getModel. }
  destruct (getModelFromEnvironment env this0) as [envModel|].
  - destruct (negb (falsy (Some envModel))
              && hasModel (modelRegistry this0) (currentAuthType this0)
                   envModel) eqn:Henv.
    + apply andb_true_iff in Henv as [Hne Hhas'].
      apply negb_true_iff, bool_decide_eq_false in Hne.
      split; [done|]. by apply hasModel_true_getModel.
    + simpl. split; [done|]. by rewrite Hdget.
  - simpl. split; [done|]. by rewrite Hdget.
Qed.

(** X14. Right after its construction the manager has a current selection
    exactly when the registry has at least one model for the current
    provider-type.  In particular a manager constructed without an initial
    provider-type, which is then the built-in one, always has a current
    selection. *)
Theorem constructed_manager_selected_iff_models
    (env : Env) (now : Z) (options : ModelSelectionManagerOptions)
    (this : ModelSelectionManager) :
  ModelSelectionManager_new env now options = Ok this →
  ((∃ info, getCurrentModel this = Ok info)
   ↔ hasAuthType (modelRegistry this) (currentAuthType this) = true)
  ∧ (falsy (Options.initialAuthType options) = true →
     ∃ info, getCurrentModel this = Ok info
             ∧ CurrentModelInfo.authType info = QWEN_OAUTH).
Proof.
  intros (reg & Hnew & ->)%ModelSelectionManager_new_Ok.
  remember {| modelRegistry := reg;
              onModelChange := Options.onModelChange options;
              currentAuthType :=
                or_else (Options.initialAuthType options) QWEN_OAUTH;
              currentModelId := or_else (Options.initialModelId options) "";
              selectionSource := DEFAULT;
              selectionTimestamp := now |} as this0 eqn:Hthis0.
  assert (modelRegistry this0 = reg) as Hreg0 by (by subst this0).
  assert (currentAuthType this0
          = or_else (Options.initialAuthType options) QWEN_OAUTH) as Hauth0
    by (by subst this0).
  clear Hthis0. rewrite <- Hreg0 in Hnew.
  destruct (initializeDefaultSelection_frame env this0)
    as (Hreg & Hauth & _ & _).
  assert (hasAuthType (modelRegistry this0) (currentAuthType this0) = true →
          ∃ info, getCurrentModel (initializeDefaultSelection env this0)
                  = Ok info) as Hselected.
  { intros Hhas. apply getCurrentModel_Ok_iff. rewrite Hreg, Hauth.
    by eapply initializeDefaultSelection_selected. }
  split; [split|].
  - intros (_ & [r Hr])%getCurrentModel_Ok_iff.
    rewrite Hreg, Hauth in *.
    apply hasAuthType_agrees_iff. eexists.
    by eapply getModel_Some_hasModel.
  - rewrite Hreg, Hauth. exact Hselected.
  - intros Hnone.
    assert (currentAuthType this0 = QWEN_OAUTH) as Hq.
    { rewrite Hauth0. unfold falsy, or_else in *.
      destruct (Options.initialAuthType options) as [a|]; [|done].
      apply bool_decide_eq_true in Hnone. by rewrite decide_True. }
    destruct Hselected as [info Hinfo].
    { rewrite Hq.
      assert (ModelRegistry_new
                (Some (default [] (Options.modelProvidersConfig options)))
              = Ok (modelRegistry this0)) as Hnew'
        by (by destruct (Options.modelProvidersConfig options)).
      unfold hasAuthType.
      by rewrite (ModelRegistry_new_builtin_catalog _ _ Hnew'). }
    exists info. split; [done|].
    apply getCurrentModel_Ok in Hinfo as (-> & _). by rewrite Hauth.
Qed.

Lemma constructed_manager_selected_iff_models_witness :
  ModelSelectionManager_new no_env 1000
    (openai_options (Some "non-existent") [("openai", [])])
  = Ok (manager_of no_env 1000
          (openai_options (Some "non-existent") [("openai", [])]))
  ∧ hasAuthType (registry_of (Some [("openai", [])])) "openai" = false
  ∧ ¬ ∃ info,
        getCurrentModel
          (manager_of no_env 1000
             (openai_options (Some "non-existent") [("openai", [])]))
        = Ok info.
Proof.
  assert (ModelSelectionManager_new no_env 1000
            (openai_options (Some "non-existent") [("openai", [])])
          = Ok (manager_of no_env 1000
                  (openai_options (Some "non-existent") [("openai", [])])))
    as Hnew by reflexivity.
  assert (hasAuthType (registry_of (Some [("openai", [])])) "openai" = false)
    as Hhas by (by vm_compute).
  split; [exact Hnew|]. split; [exact Hhas|].
  destruct (constructed_manager_selected_iff_models _ _ _ _ Hnew)
    as [[Hto _] _].
  intros Hinfo. specialize (Hto Hinfo).
  change (hasAuthType (registry_of (Some [("openai", [])])) "openai" = true)
    in Hto.
  by rewrite Hhas in Hto.
Defined.

(** X15. The environment takes part in the initialization only through
    [OPENAI_MODEL], and only for the provider-type [openai]: two
    environments that agree on that variable, or any two environments when
    the provider-type is another one, construct the same manager. *)
Theorem initialization_reads_only_OPENAI_MODEL
    (env1 env2 : Env) (now : Z) (options : ModelSelectionManagerOptions) :
  or_else (Options.initialAuthType options) QWEN_OAUTH ≠ USE_OPENAI
  ∨ env1 "OPENAI_MODEL" = env2 "OPENAI_MODEL" →
  ModelSelectionManager_new env1 now options
  = ModelSelectionManager_new env2 now options.
Proof.
  intros Henv. unfold ModelSelectionManager_new.
  destruct (ModelRegistry_new (Options.modelProvidersConfig options))
    as [reg|e]; simpl; [|done].
  f_equal. unfold initializeDefaultSelection, getModelFromEnvironment. simpl.
  destruct Henv as [Hother|Hsame].
  - by rewrite !decide_False.
  - by rewrite Hsame.
Qed.

Lemma initialization_reads_only_OPENAI_MODEL_witness :
  ModelSelectionManager_new (openai_model_env "gpt-3.5-turbo") 1000
    {| Options.initialAuthType := None; Options.initialModelId := None;
       Options.onModelChange := None;
       Options.modelProvidersConfig := Some defaultConfig |}
  = ModelSelectionManager_new no_env 1000
      {| Options.initialAuthType := None; Options.initialModelId := None;
         Options.onModelChange := None;
         Options.modelProvidersConfig := Some defaultConfig |}.
Proof.
  apply initialization_reads_only_OPENAI_MODEL. by left.
Defined.

(** ** The listing the display surface works with *)

(** X16. In a manager over a constructed registry, the current selection
    is one of the models [getAvailableModels] lists, under the same
    identifier and with the name of the selected definition as its label;
    and no switch, however it ends, changes that listing. *)
Theorem current_model_is_among_available_models
    (cfg : option ModelProvidersConfig) (this : ModelSelectionManager)
    (info : CurrentModelInfo.t) :
  ModelRegistry_new cfg = Ok (modelRegistry this) →
  getCurrentModel this = Ok info →
  (∃ summary,
     summary ∈ getAvailableModels this
     ∧ Available.id summary = CurrentModelInfo.modelId info
     ∧ Available.label summary = Resolved.name (CurrentModelInfo.model info)
     ∧ Available.authType summary = CurrentModelInfo.authType info)
  ∧ ∀ now modelId source metadata,
      getAvailableModels (switchModel now modelId source metadata this).1
      = getAvailableModels this.
Proof.
  intros Hnew (Hauth & Hid & Hmodel & _)%getCurrentModel_Ok. split.
  - destruct (ModelRegistry_new_well_resolved _ _ _ _ _ Hnew Hmodel)
      as (Hrid & Hrauth & _).
    unfold getAvailableModels, getModelsForAuthType.
    unfold getModel in Hmodel.
    destruct (OMap.get (currentAuthType this)
                (modelsByAuthType (modelRegistry this))) as [mm|]; [|done].
    apply omap_get_elem_of in Hmodel.
    eexists. split.
    + apply list_elem_of_fmap. exists (CurrentModelInfo.model info).
      split; [reflexivity|]. unfold OMap.values.
      apply list_elem_of_fmap. by eexists (_, _).
    + simpl. by rewrite Hrid, Hrauth, Hid, Hauth.
  - intros now modelId source metadata. unfold getAvailableModels, switchModel.
    destruct (getModel _ _ modelId) as [model|]; [|done]. simpl.
    destruct (onModelChange this) as [callback|]; [|done].
    by destruct (callback _ _).
Qed.

Lemma current_model_is_among_available_models_witness :
  ModelRegistry_new (Some defaultConfig) = Ok (modelRegistry sample_manager)
  ∧ "gpt-4-turbo" ∈ Available.id <$> getAvailableModels sample_manager.
Proof.
  assert (ModelRegistry_new (Some defaultConfig)
          = Ok (modelRegistry sample_manager)) as Hnew by reflexivity.
  split; [exact Hnew|].
  destruct (getCurrentModel sample_manager) as [info|e] eqn:Hinfo;
    [|by vm_compute in Hinfo].
  destruct (current_model_is_among_available_models _ _ _ Hnew Hinfo)
    as [(summary & Hin & Hid & _) _].
  apply getCurrentModel_Ok in Hinfo as (_ & Hcur & _).
  apply list_elem_of_fmap. exists summary. split; [|done].
  by rewrite Hid, Hcur.
Defined.

(** ** Provider-types the registry does not know *)

(** X17. For a provider-type that is neither the built-in one nor a key of
    the configuration, every query of a constructed registry answers in the
    negative without failing: no models, no first and no default model, no
    lookup succeeds, and no reverse lookup mentions it. *)
Theorem unknown_provider_type_has_nothing
    (cfg : ModelProvidersConfig) (reg : ModelRegistry) (authType : AuthType) :
  ModelRegistry_new (Some cfg) = Ok reg →
  authType ≠ QWEN_OAUTH →
  authType ∉ cfg.*1 →
  getModelsForAuthType reg authType = []
  ∧ hasAuthType reg authType = false
  ∧ getFirstModelForAuthType reg authType = None
  ∧ getDefaultModelForAuthType reg authType = None
  ∧ (authType ∉ getAvailableAuthTypes reg)
  ∧ ∀ modelId preferred,
      getModel reg authType modelId = None
      ∧ hasModel reg authType modelId = false
      ∧ (preferred ≠ Some authType →
         authType ∉ findAuthTypesForModel reg modelId preferred).
Proof.
  intros Hnew Hne Hout.
  assert (OMap.get authType (modelsByAuthType reg) = None) as Hget.
  { rewrite ModelRegistry_new_Some in Hnew.
    destruct builtin_registered as (this & index & Hbuiltin & Hthis & _).
    rewrite Hbuiltin in Hnew. simpl in Hnew.
    rewrite (register_entries_get_other _ _ _ authType Hnew (or_intror Hout)).
    rewrite Hthis. simpl. by rewrite decide_False. }
  assert (∀ modelId, authType ∉ findAuthTypesForModel reg modelId None)
    as Hindex.
  { intros modelId. rewrite (ModelRegistry_new_index _ _ _ Hnew).
    rewrite elem_of_registrations.
    intros [[? _]|(_ & models & c & Hin & _)]; [done|].
    apply Hout. apply list_elem_of_fmap. by exists (authType, models). }
  unfold getModelsForAuthType, hasAuthType, getFirstModelForAuthType,
    getDefaultModelForAuthType, getModel, hasModel.
  rewrite decide_False by done. unfold getFirstModelForAuthType.
  rewrite Hget. repeat split; try done.
  - unfold getAvailableAuthTypes. rewrite <- omap_has_keys.
    unfold OMap.has. by rewrite Hget.
  - intros Hpref. specialize (Hindex modelId).
    unfold findAuthTypesForModel in *.
    destruct preferred as [p|]; [|done].
    case_decide; [done|]. case_decide as Hp; [|done].
    intros [->|Hin]%elem_of_cons; [done|].
    by apply list_elem_of_filter in Hin as [_ Hin].
Qed.

Lemma unknown_provider_type_has_nothing_witness :
  ModelRegistry_new (Some defaultConfig) = Ok (registry_of (Some defaultConfig))
  ∧ getModelsForAuthType (registry_of (Some defaultConfig)) "vertex-ai" = []
  ∧ getModel (registry_of (Some defaultConfig)) "vertex-ai" "gpt-4-turbo"
    = None.
Proof.
  assert (ModelRegistry_new (Some defaultConfig)
          = Ok (registry_of (Some defaultConfig))) as Hnew by reflexivity.
  split; [exact Hnew|].
  destruct (unknown_provider_type_has_nothing defaultConfig _ "vertex-ai" Hnew)
    as (Hlist & _ & _ & _ & _ & Hlookup).
  - done.
  - apply (bool_decide_unpack _). by vm_compute.
  - split; [exact Hlist|]. by destruct (Hlookup "gpt-4-turbo" None) as [? _].
Defined.

(** ** Preference in the reverse lookup *)

(** X18. In any registry a preferred provider-type only reorders the
    reverse lookup: the result mentions the same provider-types as the
    lookup without preference and is never longer, and when no
    provider-type occurs twice it is a rearrangement with the preferred
    one, if present, in front. *)
Theorem preference_only_reorders
    (reg : ModelRegistry) (modelId : string) (preferred : option AuthType) :
  let all := findAuthTypesForModel reg modelId None in
  let result := findAuthTypesForModel reg modelId preferred in
  (∀ a, a ∈ result ↔ a ∈ all)
  ∧ (length result ≤ length all)%nat
  ∧ (NoDup all → result ≡ₚ all ∧ NoDup result).
Proof.
  unfold findAuthTypesForModel.
  generalize (default [] (modelIdToAuthTypes reg !! modelId)). intros all.
  destruct preferred as [p|]; [|done].
  case_decide; [done|]. case_decide as Hp; [|done].
  split; [|split].
  - intros a. rewrite elem_of_cons, list_elem_of_filter.
    destruct (decide (a = p)) as [->|Hne]; [by split; [|left]|].
    split; [by intros [?|[_ ?]]|]. intros Hin. by right.
  - simpl. apply list_elem_of_split in Hp as (l1 & l2 & ->).
    rewrite filter_app, filter_cons, decide_False by (by intros []).
    rewrite !length_app. simpl.
    pose proof (length_filter (λ a, a ≠ p) l1).
    pose proof (length_filter (λ a, a ≠ p) l2). lia.
  - intros Hnodup. apply list_elem_of_split in Hp as (l1 & l2 & ->).
    assert ((p ∉ l1) ∧ (p ∉ l2)) as [H1 H2].
    { apply NoDup_app in Hnodup as (_ & Hdisj & Hnodup2).
      apply NoDup_cons in Hnodup2 as [H2 _]. split; [|done].
      intros Hin. apply (Hdisj p Hin). by left. }
    rewrite filter_ne_middle by done.
    assert (p :: l1 ++ l2 ≡ₚ l1 ++ p :: l2) as Hperm
      by apply Permutation_middle.
    split; [done|]. by rewrite Hperm.
Qed.

Lemma preference_only_reorders_witness :
  NoDup (findAuthTypesForModel (registry_of (Some sharedConfig))
           "shared-model" None)
  ∧ findAuthTypesForModel (registry_of (Some sharedConfig)) "shared-model"
      (Some "gemini-api-key")
    ≡ₚ findAuthTypesForModel (registry_of (Some sharedConfig)) "shared-model"
         None.
Proof.
  assert (NoDup (findAuthTypesForModel (registry_of (Some sharedConfig))
                   "shared-model" None)) as Hnodup
    by (apply (bool_decide_unpack _); by vm_compute).
  split; [exact Hnodup|].
  destruct (preference_only_reorders (registry_of (Some sharedConfig))
              "shared-model" (Some "gemini-api-key")) as (_ & _ & Hperm).
  by destruct (Hperm Hnodup).
Defined.

(** ** The manager that found nothing to select *)

(** X19. When the registry has no model for the current provider-type, the
    constructed manager keeps the persisted identifier as its current
    identifier with the source default, and the query for the current
    selection fails: with the no-selection error when no identifier was
    persisted, and otherwise with the not-found error that names the
    persisted identifier. *)
Theorem constructed_manager_without_models
    (env : Env) (now : Z) (options : ModelSelectionManagerOptions)
    (this : ModelSelectionManager) :
  ModelSelectionManager_new env now options = Ok this →
  hasAuthType (modelRegistry this) (currentAuthType this) = false →
  getCurrentModelId this = or_else (Options.initialModelId options) ""
  ∧ getSelectionSource this = DEFAULT
  ∧ getAvailableModels this = []
  ∧ getCurrentModel this
    = Throw (Error
        (if decide (getCurrentModelId this = "")
         then no_model_selected_message
         else current_not_found_message (getCurrentModelId this)
                (getCurrentAuthType this))).
Proof.
  intros (reg & Hnew & ->)%ModelSelectionManager_new_Ok.
  remember {| modelRegistry := reg;
              onModelChange := Options.onModelChange options;
              currentAuthType :=
                or_else (Options.initialAuthType options) QWEN_OAUTH;
              currentModelId := or_else (Options.initialModelId options) "";
              selectionSource := DEFAULT;
              selectionTimestamp := now |} as this0 eqn:Hthis0.
  assert (currentModelId this0 = or_else (Options.initialModelId options) "")
    as Hid0 by (by subst this0).
  assert (selectionSource this0 = DEFAULT) as Hsrc0 by (by subst this0).
  clear Hthis0 Hnew.
  destruct (initializeDefaultSelection_frame env this0)
    as (Hreg & Hauth & _ & _).
  rewrite Hreg, Hauth. intros Hhas.
  assert (∀ modelId,
            hasModel (modelRegistry this0) (currentAuthType this0) modelId
            = false) as Hnone.
  { intros modelId.
    destruct (hasModel _ _ modelId) eqn:Hm; [|done].
    rewrite <- Hhas. symmetry. apply hasAuthType_agrees_iff. by exists modelId. }
  assert (getDefaultModelForAuthType (modelRegistry this0)
            (currentAuthType this0) = None) as Hdefault.
  { destruct (getDefaultModelForAuthType _ _) as [d|] eqn:Hd; [|done].
    exfalso. unfold getDefaultModelForAuthType in Hd.
    case_decide.
    - apply getModel_Some_hasModel in Hd. by rewrite Hnone in Hd.
    - unfold getFirstModelForAuthType, hasAuthType in *.
      by destruct (OMap.get _ _) as [[|[k r] mm]|]. }
  assert (initializeDefaultSelection env this0 = this0) as ->.
  { unfold initializeDefaultSelection.
    rewrite Hnone, andb_false_r, Hdefault.
    destruct (getModelFromEnvironment env this0) as [envModel|]; [|done].
    by rewrite Hnone, andb_false_r. }
  unfold getCurrentModelId, getSelectionSource, getAvailableModels,
    getCurrentAuthType.
  split; [done|]. split; [done|]. split.
  - destruct (getModelsForAuthType _ _) as [|summary l] eqn:Hlist; [done|].
    unfold getModelsForAuthType, hasAuthType in *.
    by destruct (OMap.get _ _) as [[|[k r] mm]|].
  - unfold getCurrentModel, falsy.
    destruct (decide (currentModelId this0 = "")) as [Hempty|Hstale].
    + by rewrite bool_decide_eq_true_2.
    + rewrite bool_decide_eq_false_2 by done.
      specialize (Hnone (currentModelId this0)).
      apply hasModel_getModel in Hnone. by rewrite Hnone.
Qed.

Lemma constructed_manager_without_models_witness :
  ModelSelectionManager_new no_env 1000
    (openai_options (Some "non-existent") [("openai", [])])
  = Ok (manager_of no_env 1000
          (openai_options (Some "non-existent") [("openai", [])]))
  ∧ getCurrentModel
      (manager_of no_env 1000
         (openai_options (Some "non-existent") [("openai", [])]))
    = Throw (Error
        "Current model 'non-existent' not found for authType 'openai'").
Proof.
  assert (ModelSelectionManager_new no_env 1000
            (openai_options (Some "non-existent") [("openai", [])])
          = Ok (manager_of no_env 1000
                  (openai_options (Some "non-existent") [("openai", [])])))
    as Hnew by reflexivity.
  split; [exact Hnew|].
  destruct (constructed_manager_without_models _ _ _ _ Hnew)
    as (_ & _ & _ & ->); by vm_compute.
Defined.

(** ** The reverse index against the forward catalog *)

Lemma registrations_of_absent modelId authType models :
  modelId ∉ omap ModelConfig.id models →
  registrations_of modelId authType models = [].
Proof.
  unfold registrations_of.
  induction models as [|config rest IH]; [done|].
  intros Hout. rewrite filter_cons. csimpl in Hout.
  destruct (ModelConfig.id config) as [id|] eqn:Hid; csimpl in Hout.
  - apply not_elem_of_cons in Hout as [Hne Hout].
    rewrite decide_False by congruence. by apply IH.
  - rewrite decide_False by done. by apply IH.
Qed.

Lemma registrations_of_cons modelId authType config rest :
  registrations_of modelId authType (config :: rest)
  = (if decide (ModelConfig.id config = Some modelId) then [authType] else [])
    ++ registrations_of modelId authType rest.
Proof.
  unfold registrations_of. rewrite filter_cons. by case_decide.
Qed.

Lemma registrations_of_NoDup modelId authType models :
  NoDup (omap ModelConfig.id models) →
  registrations_of modelId authType models
  = if decide (modelId ∈ omap ModelConfig.id models) then [authType] else [].
Proof.
  induction models as [|config rest IH]; intros Hnodup; [done|].
  rewrite registrations_of_cons. csimpl in *.
  destruct (ModelConfig.id config) as [id|] eqn:Hid; csimpl in *.
  - apply NoDup_cons in Hnodup as [Hfresh Hnodup].
    destruct (decide (Some id = Some modelId)) as [[= ->]|Hne].
    + rewrite (registrations_of_absent _ _ _ Hfresh).
      destruct (decide (modelId ∈ modelId :: omap ModelConfig.id rest))
        as [?|Hout]; [done|].
      exfalso. apply Hout. by left.
    + rewrite (IH Hnodup). simpl.
      destruct (decide (modelId ∈ omap ModelConfig.id rest)) as [Hin|Hout];
        destruct (decide (modelId ∈ id :: omap ModelConfig.id rest))
          as [Hin'|Hout']; try done.
      * exfalso. apply Hout'. by right.
      * apply elem_of_cons in Hin' as [->|?]; done.
  - destruct (decide (None = Some modelId)) as [?|_]; [done|]. by apply IH.
Qed.

Lemma elem_of_registrations_of_ids modelId authType models a :
  a ∈ registrations_of modelId authType models
  ↔ a = authType ∧ modelId ∈ omap ModelConfig.id models.
Proof.
  rewrite elem_of_registrations_of, list_elem_of_omap. done.
Qed.

Lemma filter_ext_elem_of {A} (P Q : A → Prop) `{!∀ x, Decision (P x)}
    `{!∀ x, Decision (Q x)} (l : list A) :
  (∀ x, x ∈ l → P x ↔ Q x) → filter P l = filter Q l.
Proof.
  induction l as [|x l IH]; intros Hext; [done|].
  rewrite !filter_cons.
  assert (filter P l = filter Q l) as ->.
  { apply IH. intros y Hy. apply Hext. by right. }
  destruct (decide (P x)) as [HP|HP], (decide (Q x)) as [HQ|HQ]; try done.
  - exfalso. apply HQ, Hext; [by left|done].
  - exfalso. apply HP, Hext; [by left|done].
Qed.

Lemma user_entries_registrations modelId (cfg : ModelProvidersConfig) :
  NoDup cfg.*1 →
  Forall (λ entry, NoDup (omap ModelConfig.id entry.2)) (user_entries cfg) →
  user_entries cfg ≫= (λ entry, registrations_of modelId entry.1 entry.2)
  = filter (λ a, a ∈ user_entries cfg
                       ≫= λ entry, registrations_of modelId entry.1 entry.2)
      (user_entries cfg).*1.
Proof.
  intros Hnodup.
  assert (NoDup (user_entries cfg).*1) as Hkeys.
  { unfold user_entries. clear -Hnodup.
    induction cfg as [|[key models] rest IH]; csimpl; [constructor|].
    csimpl in Hnodup. apply NoDup_cons in Hnodup as [Hfresh Hnodup].
    rewrite filter_cons. case_decide; csimpl; [|by apply IH].
    apply NoDup_cons. split; [|by apply IH].
    intros Hin. apply Hfresh.
    apply list_elem_of_fmap in Hin as (entry & -> & [_ Hentry]%list_elem_of_filter).
    apply list_elem_of_fmap. by exists entry. }
  clear Hnodup. induction (user_entries cfg) as [|[key models] rest IH];
    intros Hids; csimpl; [done|].
  csimpl in Hkeys. apply NoDup_cons in Hkeys as [Hfresh Hkeys].
  apply Forall_cons in Hids as [Hhd Htl]. simpl in Hhd.
  assert (∀ a, a ∈ rest.*1 →
            (a ∈ registrations_of modelId key models
                 ++ (rest ≫= λ entry, registrations_of modelId entry.1 entry.2))
            ↔ a ∈ rest ≫= λ entry, registrations_of modelId entry.1 entry.2)
    as Hrest.
  { intros a Ha. rewrite elem_of_app, elem_of_registrations_of_ids.
    split; [|by right]. intros [[-> _]|?]; done. }
  assert (key ∉ rest ≫= λ entry, registrations_of modelId entry.1 entry.2)
    as Hkey.
  { intros (entry & Hin & Hentry)%list_elem_of_bind.
    apply elem_of_registrations_of_ids in Hin as [-> _].
    apply Hfresh. apply list_elem_of_fmap. by exists entry. }
  rewrite filter_cons, (registrations_of_NoDup _ _ _ Hhd).
  destruct (decide (modelId ∈ omap ModelConfig.id models)) as [Hin|Hout].
  - rewrite decide_True by (by left). csimpl. f_equal.
    rewrite (IH Hkeys Htl) at 1.
    apply filter_ext_elem_of. intros a Ha. symmetry.
    specialize (Hrest a Ha).
    rewrite (registrations_of_NoDup _ _ _ Hhd), decide_True in Hrest by done.
    exact Hrest.
  - rewrite decide_False by done. csimpl.
    rewrite (IH Hkeys Htl) at 1.
    apply filter_ext_elem_of. intros a Ha. done.
Qed.

Lemma ModelRegistry_new_keys cfg reg :
  ModelRegistry_new (Some cfg) = Ok reg →
  NoDup cfg.*1 →
  getAvailableAuthTypes reg = QWEN_OAUTH :: (user_entries cfg).*1.
Proof.
  intros Hnew Hnodup. rewrite ModelRegistry_new_Some in Hnew.
  destruct builtin_registered as (this & index & Hbuiltin & Hthis & _).
  rewrite Hbuiltin in Hnew. simpl in Hnew.
  unfold getAvailableAuthTypes.
  rewrite (register_entries_keys _ _ _ Hnodup) with (2 := Hnew);
    [by rewrite Hthis|].
  rewrite Hthis. simpl. intros key ->%list_elem_of_singleton Hin.
  apply list_elem_of_fmap in Hin as (entry & Hkey & Hentry).
  by apply list_elem_of_filter in Hentry as [Hne _].
Qed.

(** X20. When the keys of the configuration are distinct and no entry
    repeats an identifier, the reverse lookup without preference is the
    list of provider-types, in the order [getAvailableAuthTypes] gives
    them, restricted to those for which [hasModel] holds of the
    identifier: the built-in provider-type first, the others in the order
    of the configuration, each once. *)
Theorem findAuthTypesForModel_follows_provider_order
    (cfg : ModelProvidersConfig) (reg : ModelRegistry) (modelId : string) :
  ModelRegistry_new (Some cfg) = Ok reg →
  NoDup cfg.*1 →
  Forall (λ entry, NoDup (omap ModelConfig.id entry.2)) (user_entries cfg) →
  findAuthTypesForModel reg modelId None
  = filter (λ a, hasModel reg a modelId = true) (getAvailableAuthTypes reg).
Proof.
  intros Hnew Hnodup Hids.
  rewrite (ModelRegistry_new_index _ _ _ Hnew).
  rewrite (ModelRegistry_new_keys _ _ Hnew Hnodup).
  rewrite (filter_ext_elem_of _ (λ a, a ∈ registrations modelId cfg)); last first.
  { intros a _. by apply ModelRegistry_new_hasModel. }
  unfold registrations.
  set (builtin := registrations_of modelId QWEN_OAUTH QWEN_OAUTH_MODELS).
  set (user := user_entries cfg
                 ≫= λ entry, registrations_of modelId entry.1 entry.2).
  assert (QWEN_OAUTH ∉ user) as Hq.
  { intros (entry & Hin & Hentry)%list_elem_of_bind.
    apply elem_of_registrations_of_ids in Hin as [Heq _].
    by apply list_elem_of_filter in Hentry as [Hne _]. }
  assert (builtin = if decide (QWEN_OAUTH ∈ builtin ++ user)
                    then [QWEN_OAUTH] else []) as Hbuiltin.
  { subst builtin. rewrite registrations_of_NoDup
      by (apply (bool_decide_unpack _); by vm_compute).
    destruct (decide (modelId ∈ omap ModelConfig.id QWEN_OAUTH_MODELS)).
    - rewrite decide_True; [done|]. apply elem_of_app. left. by left.
    - rewrite decide_False; [done|].
      by intros [[]%elem_of_nil|?]%elem_of_app. }
  rewrite filter_cons.
  rewrite Hbuiltin at 1.
  destruct (decide (QWEN_OAUTH ∈ builtin ++ user)) as [Hin|Hout]; csimpl.
  - f_equal. subst user. rewrite (user_entries_registrations _ _ Hnodup Hids) at 1.
    apply filter_ext_elem_of. intros a Ha. rewrite elem_of_app.
    split; [by right|]. intros [Hb|?]; [|done].
    rewrite Hbuiltin in Hb.
    apply list_elem_of_singleton in Hb as ->.
    apply list_elem_of_fmap in Ha as (entry & Heq & Hentry).
    by apply list_elem_of_filter in Hentry as [Hne _].
  - subst user. rewrite (user_entries_registrations _ _ Hnodup Hids) at 1.
    apply filter_ext_elem_of. intros a Ha. rewrite elem_of_app.
    split; [by right|]. intros [Hb|?]; [|done].
    rewrite Hbuiltin in Hb. by apply elem_of_nil in Hb.
Qed.

Lemma findAuthTypesForModel_follows_provider_order_witness :
  ModelRegistry_new (Some sharedConfig) = Ok (registry_of (Some sharedConfig))
  ∧ getAvailableAuthTypes (registry_of (Some sharedConfig))
    = ["qwen-oauth"; "openai"; "gemini-api-key"]
  ∧ findAuthTypesForModel (registry_of (Some sharedConfig)) "shared-model" None
    = ["openai"; "gemini-api-key"].
Proof.
  assert (ModelRegistry_new (Some sharedConfig)
          = Ok (registry_of (Some sharedConfig))) as Hnew by reflexivity.
  split; [exact Hnew|]. split; [by vm_compute|].
  rewrite (findAuthTypesForModel_follows_provider_order sharedConfig _
             "shared-model" Hnew).
  - by vm_compute.
  - apply (bool_decide_unpack _). by vm_compute.
  - repeat constructor; apply (bool_decide_unpack _); by vm_compute.
Defined.
